(** * AI-Search-Engine: the search route ([src/app/api/search/route.ts])

    A shallow embedding of the four-stage pipeline of the route handler
    (query expansion, result-page parsing, content extraction, synthesis
    with citation bookkeeping) and of the [POST] handler that chains them,
    followed by the properties of the pipeline.

    Conventions of the embedding:
    - a JavaScript string is the list of its UTF-16 code units;
    - a page is the node tree cheerio builds from its markup;
    - the outbound world (HTTP fetches, the chat-completion service) is an
      oracle that answers each call from the history of effects so far, so
      two fetches of one URL may answer differently;
    - [async] functions are computations in a state-and-exception monad
      over that history; [try]/[catch] is a combinator of the monad. *)

From Stdlib Require Import List NArith String Ascii Bool Arith Lia.
Import ListNotations.

Set Implicit Arguments.
Set Warnings "-register-all".

(* ================================================================== *)
(** * JavaScript strings *)
(* ================================================================== *)

Module JsString.

Local Open Scope N_scope.

(** A string is its sequence of UTF-16 code units (values below 65536). *)
Definition jsstring := list N.

(** The ASCII literal [s] as a JavaScript string. *)
Definition js (s : string) : jsstring :=
  map N_of_ascii (list_ascii_of_string s).

Definition SPACE : N := 32.
Definition LF : N := 10.

(** ECMAScript WhiteSpace and LineTerminator code units: the class [\s]
    of a regular expression without the unicode flag, which is also the
    set [String.prototype.trim] strips. *)
Definition isWhiteSpace (c : N) : bool :=
  ((9 <=? c) && (c <=? 13)) || (c =? 32) || (c =? 160) || (c =? 5760)
  || ((8192 <=? c) && (c <=? 8202)) || (c =? 8232) || (c =? 8233)
  || (c =? 8239) || (c =? 8287) || (c =? 12288) || (c =? 65279).

Fixpoint eqb (s t : jsstring) : bool :=
  match s, t with
  | [], [] => true
  | c :: s', d :: t' => (c =? d) && eqb s' t'
  | _, _ => false
  end.

(** Truthiness of a string: [if (s)] holds when [s] is not empty. *)
Definition truthy (s : jsstring) : bool :=
  match s with [] => false | _ :: _ => true end.

Fixpoint trimStart (s : jsstring) : jsstring :=
  match s with
  | [] => []
  | c :: t => if isWhiteSpace c then trimStart t else s
  end.

Definition trimEnd (s : jsstring) : jsstring :=
  rev (trimStart (rev s)).

(** [s.trim()] *)
Definition trim (s : jsstring) : jsstring := trimEnd (trimStart s).

(** [s.startsWith(p)] *)
Fixpoint startsWith (p s : jsstring) : bool :=
  match p, s with
  | [], _ => true
  | c :: p', d :: s' => (c =? d) && startsWith p' s'
  | _ :: _, [] => false
  end.

(** [s.slice(0, n)] *)
Definition slice0 (n : nat) (s : jsstring) : jsstring := firstn n s.

(** [s.split(sep)] for a one-unit separator. *)
Fixpoint split (sep : N) (s : jsstring) : list jsstring :=
  match s with
  | [] => [[]]
  | c :: t =>
      if c =? sep then [] :: split sep t
      else match split sep t with
           | [] => [[c]]
           | l :: r => (c :: l) :: r
           end
  end.

(** [parts.join(sep)] *)
Fixpoint join (sep : jsstring) (parts : list jsstring) : jsstring :=
  match parts with
  | [] => []
  | [p] => p
  | p :: rest => p ++ sep ++ join sep rest
  end.

(** [s.replace(/\s+/g, ' ')]: each maximal run of white space becomes
    one space.  [in_run] tells that the previous unit belonged to a run
    already replaced. *)
Fixpoint replace_ws_runs_from (in_run : bool) (s : jsstring) : jsstring :=
  match s with
  | [] => []
  | c :: t =>
      if isWhiteSpace c
      then if in_run then replace_ws_runs_from true t
           else SPACE :: replace_ws_runs_from true t
      else c :: replace_ws_runs_from false t
  end.

Definition replace_ws_runs (s : jsstring) : jsstring :=
  replace_ws_runs_from false s.

(** The maximal white-space prefix of [s]. *)
Fixpoint ws_prefix (s : jsstring) : jsstring :=
  match s with
  | [] => []
  | c :: t => if isWhiteSpace c then c :: ws_prefix t else []
  end.

(** The number of units of [s] up to and including its last line feed,
    if it has one. *)
Fixpoint through_last_LF (s : jsstring) : option nat :=
  match s with
  | [] => None
  | c :: t =>
      match through_last_LF t with
      | Some k => Some (S k)
      | None => if c =? LF then Some 1%nat else None
      end
  end.

(** [s.replace(/\n\s*\n/g, '\n\n')].  At a line feed the greedy [\s*]
    takes the whole white-space run that follows and backtracks to its
    last line feed; the match, when there is one, is replaced and the
    scan resumes after it.  [skip] counts the units of the current match
    still to be dropped. *)
Fixpoint replace_blank_lines_from (skip : nat) (s : jsstring) : jsstring :=
  match s with
  | [] => []
  | c :: t =>
      match skip with
      | S k => replace_blank_lines_from k t
      | O =>
          if c =? LF
          then match through_last_LF (ws_prefix t) with
               | Some k => LF :: LF :: replace_blank_lines_from k t
               | None => c :: replace_blank_lines_from 0%nat t
               end
          else c :: replace_blank_lines_from 0%nat t
      end
  end.

Definition replace_blank_lines (s : jsstring) : jsstring :=
  replace_blank_lines_from 0%nat s.

End JsString.
Import JsString.

(* ================================================================== *)
(** * Run-time values *)
(* ================================================================== *)

Module Runtime.

(** The values a parsed JSON body can hold, and [undefined].  A number is
    carried by its [Number::toString] rendering. *)
Inductive jsval : Type :=
| VUndefined
| VNull
| VBool (b : bool)
| VNumber (shown : jsstring)
| VString (s : jsstring)
| VArray (items : list jsval)
| VObject (props : list (jsstring * jsval)).

(** What a JavaScript [throw] carries, by its constructor name. *)
Inductive exn : Type :=
| TypeError
| URIError
| SyntaxError
| NetworkError
| APIError
| Error (message : string).

Inductive outcome (A : Type) : Type :=
| Return (a : A)
| Throw (e : exn).
Arguments Return {A} a.
Arguments Throw {A} e.

(** Own property lookup; [JSON.parse] keeps the last of duplicate keys. *)
Fixpoint own_property (key : jsstring) (props : list (jsstring * jsval))
  : option jsval :=
  match props with
  | [] => None
  | (k, v) :: rest =>
      match own_property key rest with
      | Some v' => Some v'
      | None => if JsString.eqb k key then Some v else None
      end
  end.

(** [ToString(v)].  An array joins the renderings of its items with
    commas, [null] and [undefined] items rendering as nothing.  A plain
    object renders as [[object Object]], unless it has an own [toString]
    property: a JSON value is never callable, and [valueOf] does not
    yield a primitive, so the conversion throws. *)
Fixpoint ToString (v : jsval) : outcome jsstring :=
  match v with
  | VUndefined => Return (js "undefined")
  | VNull => Return (js "null")
  | VBool true => Return (js "true")
  | VBool false => Return (js "false")
  | VNumber shown => Return shown
  | VString s => Return s
  | VArray items =>
      (fix join_items (l : list jsval) : outcome jsstring :=
         match l with
         | [] => Return []
         | x :: rest =>
             let item :=
               match x with
               | VUndefined | VNull => Return []
               | _ => ToString x
               end in
             match item with
             | Throw e => Throw e
             | Return s =>
                 match rest with
                 | [] => Return s
                 | _ :: _ =>
                     match join_items rest with
                     | Throw e => Throw e
                     | Return r => Return (s ++ js "," ++ r)
                     end
                 end
             end
         end) items
  | VObject props =>
      match own_property (js "toString") props with
      | Some _ => Throw TypeError
      | None => Return (js "[object Object]")
      end
  end.

(** The characters [encodeURIComponent] leaves as they are:
    letters, digits and [- _ . ! ~ * ' ( )]. *)
Definition uriUnreserved (c : N) : bool :=
  (((65 <=? c) && (c <=? 90)) || ((97 <=? c) && (c <=? 122))
   || ((48 <=? c) && (c <=? 57))
   || (c =? 45) || (c =? 95) || (c =? 46) || (c =? 33) || (c =? 126)
   || (c =? 42) || (c =? 39) || (c =? 40) || (c =? 41))%N.

Definition hexDigit (d : N) : N :=
  (if d <? 10 then 48 + d else 55 + d)%N.

(** [%XX] for one octet. *)
Definition percent (octet : N) : jsstring :=
  [37%N; hexDigit (octet / 16); hexDigit (octet mod 16)].

(** The UTF-8 octets of a code point. *)
Definition utf8 (cp : N) : list N :=
  (if cp <? 128 then [cp]
   else if cp <? 2048 then [192 + cp / 64; 128 + cp mod 64]
   else if cp <? 65536 then
     [224 + cp / 4096; 128 + (cp / 64) mod 64; 128 + cp mod 64]
   else
     [240 + cp / 262144; 128 + (cp / 4096) mod 64;
      128 + (cp / 64) mod 64; 128 + cp mod 64])%N.

Definition isHighSurrogate (c : N) : bool := ((55296 <=? c) && (c <=? 56319))%N.
Definition isLowSurrogate (c : N) : bool := ((56320 <=? c) && (c <=? 57343))%N.

(** [encodeURIComponent(s)]: throws [URIError] on a lone surrogate. *)
Fixpoint encodeURIComponent (s : jsstring) : outcome jsstring :=
  let emit (octets : list N) (rest : outcome jsstring) :=
    match rest with
    | Throw e => Throw e
    | Return r => Return (flat_map percent octets ++ r)
    end in
  match s with
  | [] => Return []
  | c :: t =>
      if uriUnreserved c then
        match encodeURIComponent t with
        | Throw e => Throw e
        | Return r => Return (c :: r)
        end
      else if isLowSurrogate c then Throw URIError
      else if isHighSurrogate c then
        match t with
        | d :: t' =>
            if isLowSurrogate d
            then emit (utf8 ((c - 55296) * 1024 + (d - 56320) + 65536)%N)
                      (encodeURIComponent t')
            else Throw URIError
        | [] => Throw URIError
        end
      else emit (utf8 c) (encodeURIComponent t)
  end.

End Runtime.
Import Runtime.

(* ================================================================== *)
(** * Parsed documents and the cheerio operations the route uses *)
(* ================================================================== *)

Module Cheerio.

(** A node of a parsed document. *)
Inductive node : Type :=
| Text (data : jsstring)
| Comment (data : jsstring)
| Element (name : jsstring) (attribs : list (jsstring * jsstring))
          (children : list node).

(** A loaded document: the children of its root. *)
Definition document := list node.

(** The selectors of the route, already parsed: [name], [.cls], [#id],
    [name.cls], and a comma-separated group. *)
Inductive selector : Type :=
| ByTag (name : jsstring)
| ByClass (cls : jsstring)
| ById (id : jsstring)
| ByTagClass (name cls : jsstring)
| AnyOf (group : list selector).

(** [attribs[key]]; the parser keeps the first of duplicate attributes. *)
Fixpoint attribute (key : jsstring) (attribs : list (jsstring * jsstring))
  : option jsstring :=
  match attribs with
  | [] => None
  | (k, v) :: rest => if JsString.eqb k key then Some v else attribute key rest
  end.

(** The white-space separated words of an attribute value; [word] is the
    word being read, reversed. *)
Fixpoint words_from (word : jsstring) (s : jsstring) : list jsstring :=
  let flush (rest : list jsstring) :=
    match word with [] => rest | _ :: _ => rev word :: rest end in
  match s with
  | [] => flush []
  | c :: t =>
      if isWhiteSpace c then flush (words_from [] t)
      else words_from (c :: word) t
  end.

Definition words (s : jsstring) : list jsstring := words_from [] s.

Definition hasClass (cls : jsstring) (attribs : list (jsstring * jsstring))
  : bool :=
  match attribute (js "class") attribs with
  | Some v => existsb (JsString.eqb cls) (words v)
  | None => false
  end.

Definition hasId (id : jsstring) (attribs : list (jsstring * jsstring))
  : bool :=
  match attribute (js "id") attribs with
  | Some v => JsString.eqb v id
  | None => false
  end.

Fixpoint matches (sel : selector) (n : node) : bool :=
  match n with
  | Element name attribs _ =>
      match sel with
      | ByTag t => JsString.eqb name t
      | ByClass c => hasClass c attribs
      | ById i => hasId i attribs
      | ByTagClass t c => JsString.eqb name t && hasClass c attribs
      | AnyOf group => existsb (fun s => matches s n) group
      end
  | _ => false
  end.

(** A node followed by its descendants, in document order. *)
Fixpoint subtree (n : node) : list node :=
  n :: match n with
       | Element _ _ children => flat_map subtree children
       | _ => []
       end.

(** [$(sel)]: the matching elements of the document, in document order. *)
Definition select (doc : document) (sel : selector) : list node :=
  filter (matches sel) (flat_map subtree doc).

(** [$(element).find(sel)]: the matching descendants of [element]. *)
Definition find (element : node) (sel : selector) : list node :=
  match element with
  | Element _ _ children => filter (matches sel) (flat_map subtree children)
  | _ => []
  end.

(** [selection.first()] *)
Definition first (selection : list node) : list node := firstn 1 selection.

(** [selection.attr(key)]: the attribute of the first element, or
    [undefined]. *)
Definition attr (key : jsstring) (selection : list node) : option jsstring :=
  match selection with
  | Element _ attribs _ :: _ => attribute key attribs
  | _ => None
  end.

(** The text of a node: its text descendants concatenated, comments
    left out. *)
Fixpoint textContent (n : node) : jsstring :=
  match n with
  | Text data => data
  | Comment _ => []
  | Element _ _ children => flat_map textContent children
  end.

(** [selection.text()] *)
Definition text (selection : list node) : jsstring :=
  flat_map textContent selection.

(** [n] with every descendant matching [sel] detached. *)
Fixpoint prune (sel : selector) (n : node) : node :=
  match n with
  | Element name attribs children =>
      Element name attribs
        ((fix keep (l : list node) : list node :=
            match l with
            | [] => []
            | c :: rest =>
                if matches sel c then keep rest else prune sel c :: keep rest
            end) children)
  | _ => n
  end.

(** [$(sel).remove()]: the document without the elements matching
    [sel]. *)
Fixpoint remove (sel : selector) (doc : document) : document :=
  match doc with
  | [] => []
  | c :: rest =>
      if matches sel c then remove sel rest
      else prune sel c :: remove sel rest
  end.

End Cheerio.
Import Cheerio.

(* ================================================================== *)
(** * Effects: the outbound world and the monad of [async] code *)
(* ================================================================== *)

Module Effects.

(** One role-tagged message of a completion request. *)
Record Message : Type := { role : jsstring; content : jsstring }.

(** [choice.message.content], a string or [null]. *)
Record Choice : Type := { message_content : option jsstring }.

Record ChatCompletion : Type := { choices : list Choice }.

(** What [fetch] resolves to: the [ok] flag, and the document
    [cheerio.load(await response.text())] yields, [None] when reading the
    body rejects. *)
Record Response : Type := { ok : bool; page : option document }.

(** The effects of a run, most recent first. *)
Inductive event : Type :=
| Fetched (url : jsstring)
| Completed (model : jsstring) (messages : list Message)
| Slept (ms : nat)
| Logged (label : jsstring).

Definition history := list event.

(** The outbound capabilities.  Each answers from the effects so far and
    the request; [None] is a rejected promise (transport or
    authentication error). *)
Record World : Type := {
  http : history -> jsstring -> option Response;
  completions : history -> list Message -> option ChatCompletion
}.

Definition M (A : Type) : Type := history -> outcome A * history.

Definition ret {A} (a : A) : M A := fun h => (Return a, h).

Definition throw {A} (e : exn) : M A := fun h => (Throw e, h).

Definition bind {A B} (m : M A) (k : A -> M B) : M B :=
  fun h =>
    match m h with
    | (Return a, h') => k a h'
    | (Throw e, h') => (Throw e, h')
    end.

(** [try { body } catch (error) { handler }] *)
Definition try_catch {A} (body : M A) (handler : exn -> M A) : M A :=
  fun h =>
    match body h with
    | (Return a, h') => (Return a, h')
    | (Throw e, h') => handler e h'
    end.

(** A pure step that may throw. *)
Definition lift {A} (o : outcome A) : M A := fun h => (o, h).

Definition emit (e : event) : M unit := fun h => (Return tt, e :: h).

End Effects.
Import Effects.

Notation "x <- m ;; k" := (bind m (fun x => k))
  (at level 61, m at next level, right associativity).
Notation "m ;;; k" := (bind m (fun _ => k))
  (at level 61, right associativity).

(* ================================================================== *)
(** * The route *)
(* ================================================================== *)

Record SearchResult : Type := {
  title : jsstring;
  url : jsstring;
  snippet : jsstring
}.

(** The inbound request: the value [request.json()] resolves to ([None]
    when the body is not JSON) and the [x-forwarded-for] header. *)
Record Request : Type := {
  json_body : option jsval;
  forwarded_for : option jsstring
}.

(** The result of [NextResponse.json(data, {status})]. *)
Record NextResponse : Type := {
  status : nat;
  data : list (jsstring * jsval)
}.

Section Route.

Variable w : World.

(** [await fetch(url, { headers: HEADERS })] *)
Definition fetch (url : jsstring) : M Response :=
  fun h =>
    (match http w h url with
     | Some r => Return r
     | None => Throw NetworkError
     end, Fetched url :: h).

(** [cheerio.load(await response.text())] *)
Definition load_text (response : Response) : M document :=
  match page response with
  | Some doc => ret doc
  | None => throw NetworkError
  end.

(** [await openai.chat.completions.create({ model, messages })] *)
Definition chat_completions_create (model : jsstring)
           (messages : list Message) : M ChatCompletion :=
  fun h =>
    (match completions w h messages with
     | Some r => Return r
     | None => Throw APIError
     end, Completed model messages :: h).

(** [response.choices[0].message.content] *)
Definition first_content (response : ChatCompletion) : M (option jsstring) :=
  match choices response with
  | c :: _ => ret (message_content c)
  | [] => throw TypeError
  end.

(** [await new Promise(resolve => setTimeout(resolve, ms))] *)
Definition sleep (ms : nat) : M unit := emit (Slept ms).

(** [console.error(label, error)] *)
Definition console_error (label : jsstring) : M unit := emit (Logged label).

(** ** generateSearchQueries *)

(** The [messages] of the expansion request; [shown] is the question as
    the template literal renders it. *)
Definition expansionMessages (shown : jsstring) : list Message :=
  [ {| role := js "system";
       content := js "You are a search expert. Generate 3 specific search queries that would help answer the user's question. Format each query on a new line." |};
    {| role := js "user";
       content := js "Generate specific search queries to answer this question: " ++ shown |} ].

Definition generateSearchQueries (query : jsval) : M (list jsval) :=
  try_catch
    (shown <- lift (ToString query) ;;
     response <- chat_completions_create (js "gpt-4o")
                   (expansionMessages shown) ;;
     content <- first_content response ;;
     match content with
     | Some content =>
         if truthy content
         then ret (map VString
                     (filter (fun q => truthy (trim q)) (split LF content)))
         else ret [query]
     | None => ret [query]
     end)
    (fun error =>
       console_error (js "Error generating queries:") ;;;
       ret [query]).

(** ** searchGoogle *)

(** The callback of [$('div.g').each]: what one result container
    contributes, [None] when it is skipped.  None of its steps throws, so
    the [catch] of the callback is never entered. *)
Definition parseResult (element : node) : option SearchResult :=
  let titleElement := find element (ByTag (js "h3")) in
  let linkElement := first (find element (ByTag (js "a"))) in
  let snippetElement := find element (ByTagClass (js "div") (js "VwiC3b")) in
  let title := text titleElement in
  let url := attr (js "href") linkElement in
  let snippet := text snippetElement in
  match url with
  | Some url =>
      if truthy url && startsWith (js "http") url
         && truthy title && truthy snippet
      then Some {| title := trim title; url := trim url;
                   snippet := trim snippet |}
      else None
  | None => None
  end.

(** The [each] loop, pushing onto [results]. *)
Fixpoint eachResult (elements : list node) (results : list SearchResult)
  : list SearchResult :=
  match elements with
  | [] => results
  | element :: rest =>
      eachResult rest
        match parseResult element with
        | Some r => results ++ [r]
        | None => results
        end
  end.

Definition searchGoogle (query : jsval) : M (list SearchResult) :=
  try_catch
    (encodedQuery <- lift match ToString query with
                          | Return s => encodeURIComponent s
                          | Throw e => Throw e
                          end ;;
     let url := js "https://www.google.com/search?q=" ++ encodedQuery
                ++ js "&num=16" in
     response <- fetch url ;;
     if negb (ok response)
     then throw (Error "Failed to fetch search results")
     else
       doc <- load_text response ;;
       let results := eachResult (select doc (ByTagClass (js "div") (js "g"))) [] in
       ret (firstn 8 results))
    (fun error =>
       console_error (js "Error searching Google:") ;;;
       ret []).

(** ** extractContent *)

Definition unwanted : selector :=
  AnyOf (map ByTag [js "script"; js "style"; js "nav"; js "header";
                    js "footer"; js "aside"; js "iframe"; js "img"]).

Definition contentSelectors : list selector :=
  [ ByTag (js "article");
    ByTag (js "main");
    ByClass (js "content");
    ByClass (js "post-content");
    ByClass (js "article-content");
    ById (js "content");
    ById (js "main-content") ].

(** The [for ... of contentSelectors] loop with its [break]; [content]
    starts as the empty string. *)
Fixpoint trySelectors (doc : document) (selectors : list selector)
  : jsstring :=
  match selectors with
  | [] => []
  | selector :: rest =>
      let element := select doc selector in
      if (0 <? List.length element)%nat
      then trim (text element)
      else trySelectors doc rest
  end.

(** The trimmed texts of the paragraphs that are longer than 50 units. *)
Definition paragraphs (doc : document) : list jsstring :=
  filter (fun text => (50 <? List.length text)%nat)
         (map (fun el => trim (text [el])) (select doc (ByTag (js "p")))).

(** The value of [content] when the clean-up starts, for the document
    left by the removal. *)
Definition mainContent (doc : document) : jsstring :=
  let content := trySelectors doc contentSelectors in
  if negb (truthy content)
  then join [LF; LF] (paragraphs doc)
  else content.

(** The clean-up chain of the [return]. *)
Definition cleanUp (content : jsstring) : jsstring :=
  slice0 4000 (trim (replace_blank_lines (replace_ws_runs content))).

Definition extractContent (url : jsstring) : M jsstring :=
  try_catch
    (response <- fetch url ;;
     if negb (ok response)
     then throw (Error "Failed to fetch page content")
     else
       loaded <- load_text response ;;
       let doc := remove unwanted loaded in
       ret (cleanUp (mainContent doc)))
    (fun error =>
       console_error (js "Error extracting content from " ++ url ++ js ":") ;;;
       ret []).

(** ** synthesizeInformation *)

(** The [for ... of sources] loop; [acc] holds [sourceTexts] and
    [citations]. *)
Fixpoint processSources (sources : list SearchResult)
         (acc : list jsstring * list jsstring)
  : M (list jsstring * list jsstring) :=
  match sources with
  | [] => ret acc
  | source :: rest =>
      acc' <- try_catch
        (content <- extractContent (url source) ;;
         let '(sourceTexts, citations) := acc in
         let '(sourceTexts, citations) :=
           if truthy content
           then (sourceTexts ++ [js "Content from " ++ url source ++ js ":"
                                 ++ [LF] ++ content],
                 citations ++ [url source])
           else (sourceTexts, citations) in
         let sourceTexts :=
           if truthy (snippet source)
           then sourceTexts ++ [js "Snippet: " ++ snippet source]
           else sourceTexts in
         sleep 500 ;;;
         ret (sourceTexts, citations))
        (fun error =>
           console_error (js "Error processing source " ++ url source ++ js ":") ;;;
           ret acc) ;;
      processSources rest acc'
  end.

(** The [messages] of the synthesis request. *)
Definition synthesisMessages (shown : jsstring) (sourceTexts : list jsstring)
  : list Message :=
  [ {| role := js "system";
       content := js "You are a research assistant. Synthesize the provided information to answer the user's question. Be specific and cite sources where possible. If information is incomplete or uncertain, acknowledge this." |};
    {| role := js "user";
       content := js "Question: " ++ shown ++ [LF; LF] ++ js "Sources:"
                  ++ [LF] ++ join [LF; LF] sourceTexts |} ].

Definition synthesizeInformation (query : jsval) (sources : list SearchResult)
  : M (jsstring * list jsstring) :=
  try_catch
    (acc <- processSources sources ([], []) ;;
     let '(sourceTexts, citations) := acc in
     shown <- lift (ToString query) ;;
     response <- chat_completions_create (js "gpt-4o")
                   (synthesisMessages shown sourceTexts) ;;
     content <- first_content response ;;
     ret (match content with
          | Some content => content
          | None => js "No content available"
          end, citations))
    (fun error =>
       console_error (js "Error synthesizing information:") ;;;
       ret (js "Error synthesizing information.", [])).

(** ** POST *)

(** [const { query } = value]: throws on [null] and [undefined]; a
    primitive or an array has no [query] property. *)
Definition destructure_query (value : jsval) : outcome jsval :=
  match value with
  | VUndefined | VNull => Throw TypeError
  | VObject props =>
      Return match own_property (js "query") props with
             | Some q => q
             | None => VUndefined
             end
  | _ => Return VUndefined
  end.

(** [await request.json()] *)
Definition request_json (request : Request) : M jsval :=
  match json_body request with
  | Some value => ret value
  | None => throw SyntaxError
  end.

(** The [for ... of searchQueries] loop, pushing onto [allSources]. *)
Fixpoint gatherSources (searchQueries : list jsval)
         (allSources : list SearchResult) : M (list SearchResult) :=
  match searchQueries with
  | [] => ret allSources
  | searchQuery :: rest =>
      results <- searchGoogle searchQuery ;;
      let allSources := allSources ++ results in
      sleep 2000 ;;;
      gatherSources rest allSources
  end.

Definition POST (request : Request) : M NextResponse :=
  try_catch
    (value <- request_json request ;;
     query <- lift (destructure_query value) ;;
     let ip := match forwarded_for request with
               | Some v => if truthy v then v else js "unknown"
               | None => js "unknown"
               end in
     let rateLimitKey := js "search-" ++ ip in
     searchQueries <- generateSearchQueries query ;;
     allSources <- gatherSources searchQueries [] ;;
     result <- synthesizeInformation query allSources ;;
     let '(answer, citations) := result in
     ret {| status := 200;
            data := [ (js "query", query);
                      (js "answer", VString answer);
                      (js "citations", VArray (map VString citations));
                      (js "searchQueriesUsed", VArray searchQueries) ] |})
    (fun error =>
       console_error (js "Error processing search:") ;;;
       ret {| status := 500;
              data := [ (js "error", VString (js "Failed to process search")) ] |}).

End Route.

(* ================================================================== *)
(** * Vocabulary of the properties *)
(* ================================================================== *)

Module Spec.

(** [x] occurs in [s] as a block of consecutive units. *)
Definition infix (x s : jsstring) : Prop :=
  exists pre post, s = pre ++ x ++ post.

Definition has_double_space (s : jsstring) : Prop :=
  infix [SPACE; SPACE] s.

Definition blank (line : jsstring) : Prop :=
  Forall (fun c => isWhiteSpace c = true) line.

(** Two blank lines in a row: three line feeds with only white space
    between them. *)
Definition has_blank_line_run (s : jsstring) : Prop :=
  exists pre l1 l2 post,
    s = pre ++ [LF] ++ l1 ++ [LF] ++ l2 ++ [LF] ++ post
    /\ blank l1 /\ blank l2.

(** Every white-space unit of [s] is the space character. *)
Definition spaces_only (s : jsstring) : Prop :=
  Forall (fun c => isWhiteSpace c = true -> c = SPACE) s.

Definition is_trimmed (s : jsstring) : Prop := trim s = s.

Definition starts_with_http (s : jsstring) : Prop :=
  startsWith (js "http") s = true.

(** An entry as the parser accepts it: the trimmed forms of a non-empty
    heading text, of a non-empty link target that starts with [http] and
    of a non-empty snippet text. *)
Definition accepted (r : SearchResult) : Prop :=
  exists rawTitle rawUrl rawSnippet,
    rawTitle <> [] /\ rawUrl <> [] /\ rawSnippet <> []
    /\ starts_with_http rawUrl
    /\ r = {| title := trim rawTitle; url := trim rawUrl;
              snippet := trim rawSnippet |}.

(** What holds of every entry the parser returns. *)
Definition well_formed (r : SearchResult) : Prop :=
  accepted r
  /\ url r <> [] /\ starts_with_http (url r)
  /\ is_trimmed (title r) /\ is_trimmed (url r) /\ is_trimmed (snippet r).

(** [l] is [m] with some elements left out, order kept. *)
Inductive subsequence {A : Type} : list A -> list A -> Prop :=
| subsequence_nil : subsequence [] []
| subsequence_skip x l m : subsequence l m -> subsequence l (x :: m)
| subsequence_keep x l m : subsequence l m -> subsequence (x :: l) (x :: m).

(** What the extractor delivers at each source when [sources] are
    visited in order from history [h], a pause of 500 ms after each. *)
Fixpoint visits (w : World) (sources : list SearchResult) (h : history)
  : list (SearchResult * jsstring) :=
  match sources with
  | [] => []
  | source :: rest =>
      let '(o, h') := extractContent w (url source) h in
      (source, match o with Return c => c | Throw _ => [] end)
        :: visits w rest (Slept 500 :: h')
  end.

(** The URLs of the visits that delivered content. *)
Definition contributing (vs : list (SearchResult * jsstring)) : list jsstring :=
  map (fun v => url (fst v)) (filter (fun v => truthy (snd v)) vs).

(** The content the completion of the expansion request delivers for
    [query] at history [h]; [None] when rendering the question throws,
    the call fails, the completion has no choice or its content is
    [null]. *)
Definition expansion_content (w : World) (query : jsval) (h : history)
  : option jsstring :=
  match ToString query with
  | Return shown =>
      match completions w h (expansionMessages shown) with
      | Some r =>
          match choices r with
          | c :: _ => message_content c
          | [] => None
          end
      | None => None
      end
  | Throw _ => None
  end.

(** The body of a successful response. *)
Definition success (query : jsval) (answer : jsstring)
           (citations : list jsstring) (searchQueries : list jsval)
  : NextResponse :=
  {| status := 200;
     data := [ (js "query", query);
               (js "answer", VString answer);
               (js "citations", VArray (map VString citations));
               (js "searchQueriesUsed", VArray searchQueries) ] |}.

(** The body of the failure response. *)
Definition failure : NextResponse :=
  {| status := 500;
     data := [ (js "error", VString (js "Failed to process search")) ] |}.

(** Whether the synthesis request for [query], made once [sources] have
    been visited from history [h], is answered with a completion that has
    a choice. *)
Definition synthesis_completes (w : World) (query : jsval)
           (sources : list SearchResult) (h : history) : bool :=
  match processSources w sources ([], []) h, ToString query with
  | (Return (sourceTexts, _), h1), Return shown =>
      match completions w h1 (synthesisMessages shown sourceTexts) with
      | Some r => match choices r with _ :: _ => true | [] => false end
      | None => false
      end
  | _, _ => false
  end.

(** The [citations] of a response body, empty when it has none. *)
Definition citations_of (response : NextResponse) : list jsval :=
  match own_property (js "citations") (data response) with
  | Some (VArray items) => items
  | _ => []
  end.

Definition has_field (key : string) (response : NextResponse) : bool :=
  match own_property (js key) (data response) with
  | Some _ => true
  | None => false
  end.

(** A body that [request.json()] delivers and whose [query] can be
    read, be it [undefined]. *)
Definition readable (body : option jsval) : bool :=
  match body with
  | None | Some VNull | Some VUndefined => false
  | Some _ => true
  end.

(** A JSON object without a [query] field. *)
Definition lacks_query (body : jsval) : bool :=
  match body with
  | VObject props =>
      match own_property (js "query") props with
      | Some _ => false
      | None => true
      end
  | _ => false
  end.

(** The content selection as the specification words it: the first
    selector that matches an element with text wins and that element's
    text is the content; the paragraphs are used when there is none. *)
Definition selection_by_nonempty_element (doc : document) : jsstring :=
  match List.find (fun sel => existsb (fun el => truthy (textContent el))
                                      (select doc sel))
                  contentSelectors with
  | Some sel =>
      match List.find (fun el => truthy (textContent el)) (select doc sel) with
      | Some el => textContent el
      | None => []
      end
  | None => join [LF; LF] (paragraphs doc)
  end.

End Spec.
Import Spec.

(* ================================================================== *)
(** * Sample pages and worlds *)
(* ================================================================== *)

Module Samples.

Local Open Scope string_scope.

Definition el (name : string) (attribs : list (string * string))
           (children : list node) : node :=
  Element (js name) (map (fun kv => (js (fst kv), js (snd kv))) attribs)
          children.

(** The tree of [<html><head></head><body>...</body></html>]. *)
Definition html (body : list node) : document :=
  [el "html" [] [el "head" [] []; el "body" [] body]].

(** One result container of a results page. *)
Definition result (title href snippet : string) : node :=
  el "div" [("class", "g")]
     [ el "a" [("href", href)] [el "h3" [] [Text (js title)]];
       el "div" [("class", "VwiC3b")] [Text (js snippet)] ].

Definition served (doc : document) : Response :=
  {| ok := true; page := Some doc |}.

Definition replying (content : option jsstring) : option ChatCompletion :=
  Some {| choices := [ {| message_content := content |} ] |}.

(** Nothing answers. *)
Definition offline : World :=
  {| http := fun _ _ => None; completions := fun _ _ => None |}.

(** Every search serves [results], every other URL serves [article], and
    every completion request gets [reply]. *)
Definition world (results article : document)
           (reply : option ChatCompletion) : World :=
  {| http := fun _ url =>
       Some (served (if startsWith (js "https://www.google.com/search?q=") url
                     then results else article));
     completions := fun _ _ => reply |}.

Definition boiling : document :=
  html [el "article" [] [Text (js "Water boils at 100 degrees at sea level.")]].

Definition request (body : jsval) : Request :=
  {| json_body := Some body; forwarded_for := None |}.

Definition ask (question : string) : Request :=
  request (VObject [(js "query", VString (js question))]).


Definition two_results : document :=
  html [ result "Boiling point" "http://a.example/" "Water boils.";
         result "Steam" "http://b.example/" "It boils." ].


(** An empty [article] before a [main] with text, and a paragraph of 56
    units. *)
Definition empty_article : document :=
  html [ el "article" [] [];
         el "main" [] [Text (js "Hello")];
         el "p" [] [Text (js "Water boils at one hundred degrees Celsius at sea level.")] ].

(** The entries the parser reads off [two_results]. *)
Definition two_sources : list SearchResult :=
  [ {| title := js "Boiling point"; url := js "http://a.example/";
       snippet := js "Water boils." |};
    {| title := js "Steam"; url := js "http://b.example/";
       snippet := js "It boils." |} ].

(** A world where everything answers: searches find [two_results], pages
    are [boiling], completions say [answer]. *)
Definition answering : World :=
  world two_results boiling (replying (Some (js "answer"))).


(** Pages are served but the completion service is down. *)
Definition mute : World := world two_results boiling None.

(** The completion service answers with [null] content. *)
Definition speechless : World := world two_results boiling (replying None).

(** The completion service answers with an empty line. *)
Definition blank_reply : World :=
  world two_results boiling (replying (Some [LF])).

(** A text whose unit 4000 is a space between two words. *)
Definition long_text : jsstring :=
  (repeat 120%N 3999 ++ js " tail")%list.

Definition long_article : document :=
  html [ el "article" [] [Text long_text] ].

End Samples.

Import Samples.

(* ================================================================== *)
(** * Observations on the effects and results of a run *)
(* ================================================================== *)

Module Observed.

(** The URLs fetched in a history, oldest first. *)
Fixpoint fetches (h : history) : list jsstring :=
  match h with
  | [] => []
  | Fetched u :: h' => fetches h' ++ [u]
  | _ :: h' => fetches h'
  end.

(** The total of the pauses of a history, in milliseconds. *)
Fixpoint paused (h : history) : nat :=
  match h with
  | [] => 0
  | Slept ms :: h' => paused h' + ms
  | _ :: h' => paused h'
  end.

(** The number of completion requests of a history. *)
Fixpoint completion_calls (h : history) : nat :=
  match h with
  | [] => 0
  | Completed _ _ :: h' => S (completion_calls h')
  | _ :: h' => completion_calls h'
  end.

(** The entries an [each] loop pushes for [elements], in order. *)
Definition entries (elements : list node) : list SearchResult :=
  flat_map (fun element => match parseResult element with
                           | Some r => [r]
                           | None => []
                           end) elements.

(** [encodeURIComponent(query)] for a question of any type. *)
Definition encoded (query : jsval) : outcome jsstring :=
  match ToString query with
  | Return s => encodeURIComponent s
  | Throw e => Throw e
  end.

(** The address of a search for an encoded question. *)
Definition searchUrl (encodedQuery : jsstring) : jsstring :=
  js "https://www.google.com/search?q=" ++ encodedQuery ++ js "&num=16".







(** The blocks one visit adds to [sourceTexts]: the content, when there is
    some, then the snippet, when there is one. *)
Definition blocks (visit : SearchResult * jsstring) : list jsstring :=
  (if truthy (snd visit)
   then [js "Content from " ++ url (fst visit) ++ js ":" ++ [LF] ++ snd visit]
   else [])
  ++ (if truthy (snippet (fst visit))
      then [js "Snippet: " ++ snippet (fst visit)]
      else []).

(** The [searchQueriesUsed] of a response body, empty when it has none. *)
Definition queries_of (response : NextResponse) : list jsval :=
  match own_property (js "searchQueriesUsed") (data response) with
  | Some (VArray items) => items
  | _ => []
  end.

(** A code unit below 65536, as every unit of a string is. *)
Definition isCodeUnit (c : N) : bool := (c <? 65536)%N.

(** A unit that [encodeURIComponent] can produce: an unreserved character
    or the percent sign. *)
Definition isUriSafe (c : N) : bool := uriUnreserved c || (c =? 37)%N.

(** [JSON.parse(JSON.stringify(v))] for a value [v] other than
    [undefined]: a property whose value is [undefined] is left out, an
    [undefined] item of an array comes back as [null]. *)
Fixpoint jsonRoundTrip (v : jsval) : jsval :=
  match v with
  | VArray items =>
      VArray (map (fun x => match x with
                            | VUndefined => VNull
                            | _ => jsonRoundTrip x
                            end) items)
  | VObject props =>
      VObject ((fix keep (l : list (jsstring * jsval)) :=
                  match l with
                  | [] => []
                  | (k, x) :: rest =>
                      match x with
                      | VUndefined => keep rest
                      | _ => (k, jsonRoundTrip x) :: keep rest
                      end
                  end) props)
  | _ => v
  end.

End Observed.
Import Observed.

(* ================================================================== *)
(** * The page ([src/app/page.tsx]) *)
(* ================================================================== *)

Module Page.

(** What a rejected promise carries: an [Error] instance with its
    message, or any other value. *)
Inductive thrown : Type :=
| ErrorInstance (message : jsstring)
| NotAnError.

Inductive settled (A : Type) : Type :=
| Resolved (a : A)
| Rejected (e : thrown).
Arguments Resolved {A} a.
Arguments Rejected {A} e.

(** What [fetch] resolves to on the page: the [ok] flag and what
    [response.json()] settles to. *)
Record FetchResponse : Type := { ok : bool; json : settled jsval }.

(** The state of [Home]: the four [useState] cells; [null] is [None] for
    [error] and [VNull] for [result]. *)
Record State : Type := {
  query : jsstring;
  loading : bool;
  error : option jsstring;
  result : jsval
}.

(** The state of the first render. *)
Definition initial : State :=
  {| query := []; loading := false; error := None; result := VNull |}.

Definition setQuery (v : jsstring) (s : State) : State :=
  {| query := v; loading := loading s; error := error s; result := result s |}.

Definition setLoading (v : bool) (s : State) : State :=
  {| query := query s; loading := v; error := error s; result := result s |}.

Definition setError (v : option jsstring) (s : State) : State :=
  {| query := query s; loading := loading s; error := v; result := result s |}.

Definition setResult (v : jsval) (s : State) : State :=
  {| query := query s; loading := loading s; error := error s; result := v |}.

(** One call of [fetch(input, { method, headers, body })], with the state
    the page shows while it is pending.  [body] is the value that
    [JSON.stringify] serializes. *)
Record Sent : Type := {
  input : jsstring;
  method : jsstring;
  headers : list (jsstring * jsstring);
  body : jsval;
  pending : State
}.

(** What answers the page's requests. *)
Definition Network := Sent -> settled FetchResponse.

(** [handleSearch], after [e.preventDefault()]: the state the handler
    leaves and the requests it made. *)
Definition handleSearch (net : Network) (s : State) : State * list Sent :=
  if negb (truthy (trim (query s))) then (s, [])
  else
    let s := setLoading true s in
    let s := setError None s in
    let request :=
      {| input := js "/api/search";
         method := js "POST";
         headers := [(js "Content-Type", js "application/json")];
         body := VObject [(js "query", VString (query s))];
         pending := s |} in
    (* try *)
    let attempt : settled jsval :=
      match net request with
      | Resolved response =>
          if negb (ok response)
          then Rejected (ErrorInstance (js "Search failed"))
          else json response
      | Rejected e => Rejected e
      end in
    let s :=
      match attempt with
      | Resolved data => setResult data s
      | Rejected err =>
          (* catch *)
          setError (Some match err with
                         | ErrorInstance message => message
                         | NotAnError => js "An error occurred"
                         end) s
      end in
    (* finally *)
    let s := setLoading false s in
    (s, [request]).

End Page.

(** The page served by the route: a request to [/api/search] is handled by
    [POST] of the route, in world [w] at history [h], and answered with
    the status and the serialized body of its response; any other address
    has no handler. *)
Definition backend (w : World) (h : history) : Page.Network :=
  fun request =>
    if JsString.eqb (Page.input request) (js "/api/search")
    then
      match POST w {| json_body := Some (jsonRoundTrip (Page.body request));
                      forwarded_for := None |} h with
      | (Return response, _) =>
          Page.Resolved
            {| Page.ok := (200 <=? status response)
                          && (status response <=? 299);
               Page.json :=
                 Page.Resolved (jsonRoundTrip (VObject (data response))) |}
      | (Throw _, _) =>
          Page.Resolved
            {| Page.ok := false;
               Page.json := Page.Rejected (Page.ErrorInstance []) |}
      end
    else
      Page.Resolved
        {| Page.ok := false;
           Page.json := Page.Rejected (Page.ErrorInstance []) |}.

(* ================================================================== *)
(** * More sample pages and worlds *)
(* ================================================================== *)

Module MoreSamples.

Local Open Scope string_scope.

(** A page with no content container and one paragraph of exactly 50
    units. *)
Definition short_paragraph : document :=
  html [ el "div" [] [ el "p" [] [Text (js "Water boils at one hundred degrees at sea level ok")] ] ].

(** A navigation bar, and a [post-content] container whose text is
    interrupted by a script. *)
Definition cluttered : document :=
  html [ el "nav" [] [ el "p" [] [Text (js "Menu")] ];
         el "div" [("class", "post-content")]
            [ Text (js "  Water   boils ");
              el "script" [] [Text (js "track()")];
              Text (js "at 100 degrees. ") ] ].

(** The page while the user has typed [question]. *)
Definition typed (question : string) : Page.State :=
  Page.setQuery (js question) Page.initial.

(** The route cannot be reached. *)
Definition unreachable : Page.Network :=
  fun _ => Page.Rejected (Page.ErrorInstance (js "Failed to fetch")).

(** The route answers with a failure status. *)
Definition failing : Page.Network :=
  fun _ => Page.Resolved
             {| Page.ok := false;
                Page.json := Page.Resolved (VObject [(js "error", VString (js "Failed to process search"))]) |}.

(** A world whose completions list three queries, two of them numbered,
    between blank lines. *)
Definition listing : World :=
  world two_results boiling
        (replying (Some (js "1. boiling point" ++ [LF; LF]
                         ++ js "  sea level pressure " ++ [LF]
                         ++ js "steam" ++ [LF])%list)).

(** A completion with an empty string as content. *)
Definition silent : World := world two_results boiling (replying (Some [])).

(** A completion without any choice. *)
Definition choiceless : World :=
  world two_results boiling (Some {| choices := [] |}).

(** Pages cannot be fetched, searches and completions work. *)
Definition pageless : World :=
  {| http := fun _ url =>
       if startsWith (js "https://www.google.com/search?q=") url
       then Some (served two_results) else None;
     completions := fun _ _ => replying (Some (js "answer")) |}.

End MoreSamples.
Import MoreSamples.

(* ================================================================== *)
(** * The embedding on sample inputs *)
(* ================================================================== *)

Section Checks.

Example replace_ws_runs_sample :
  replace_ws_runs (js "  a  b " ++ [LF; 9%N; LF] ++ js "c") = js " a b c".
Proof. reflexivity. Qed.

(** The first match runs from the first line feed to the last one of the
    white space that follows it. *)
Example replace_blank_lines_sample :
  replace_blank_lines (js "a" ++ [LF; SPACE; LF; LF; 9%N] ++ js "b"
                       ++ [LF] ++ js "c")
  = js "a" ++ [LF; LF; 9%N] ++ js "b" ++ [LF] ++ js "c".
Proof. reflexivity. Qed.

Example split_sample :
  split LF (js "a" ++ [LF; LF] ++ js "b" ++ [LF])
  = [js "a"; []; js "b"; []].
Proof. reflexivity. Qed.

Example encodeURIComponent_sample :
  encodeURIComponent (js "a b&c/" ++ [233%N; 55357%N; 56832%N])
  = Return (js "a%20b%26c%2F%C3%A9%F0%9F%98%80").
Proof. reflexivity. Qed.

Example encodeURIComponent_lone_surrogate :
  encodeURIComponent (js "a" ++ [55357%N]) = Throw URIError.
Proof. reflexivity. Qed.

Example ToString_sample :
  ToString (VArray [VNull; VString (js "a"); VArray [VBool true]; VObject []])
  = Return (js ",a,true,[object Object]").
Proof. reflexivity. Qed.

Example hasClass_sample :
  hasClass (js "g") [(js "class", js "rc  g tF2Cxc")] = true.
Proof. reflexivity. Qed.

(** Script and navigation are removed before the text is taken. *)
Example remove_sample :
  text (remove unwanted
          (html [ el "nav" [] [Text (js "menu")];
                  el "main" [] [ Text (js "Hello");
                                 el "script" [] [Text (js "x()")] ] ]))
  = js "Hello".
Proof. reflexivity. Qed.

(** One run of the whole pipeline: one expanded query, two sources, both
    cited. *)
Example POST_sample :
  fst (POST answering (ask "boil?") [])
  = Return (success (VString (js "boil?")) (js "answer")
                    [js "http://a.example/"; js "http://b.example/"]
                    [VString (js "answer")]).
Proof. vm_compute. reflexivity. Qed.

(** The effects of that run, oldest first: the expansion, one search and
    its pause, two page fetches each followed by its pause, the
    synthesis. *)
Example POST_sample_effects :
  map (fun e => match e with
                | Fetched _ => 1
                | Completed _ _ => 2
                | Slept ms => ms
                | Logged _ => 0
                end)
      (rev (snd (POST answering (ask "boil?") [])))
  = [2; 1; 2000; 1; 500; 1; 500; 2].
Proof. vm_compute. reflexivity. Qed.

End Checks.

(* ================================================================== *)
(** * Facts about the string operations *)
(* ================================================================== *)

Section StringFacts.

Lemma truthy_true (s : jsstring) : truthy s = true <-> s <> [].
Proof. destruct s; simpl; split; congruence. Qed.

Lemma eqb_eq (s t : jsstring) : JsString.eqb s t = true <-> s = t.
Proof.
  revert t; induction s as [|c s IH]; intros [|d t]; simpl;
    try (split; congruence).
  rewrite andb_true_iff, N.eqb_eq, IH. split.
  - intros [-> ->]; reflexivity.
  - intros E; injection E; auto.
Qed.

Lemma startsWith_app (p s : jsstring) :
  startsWith p s = true <-> exists rest, s = p ++ rest.
Proof.
  revert s; induction p as [|c p IH]; intros s; simpl.
  - split; eauto.
  - destruct s as [|d s].
    + split; [discriminate | intros [rest E]; discriminate].
    + rewrite andb_true_iff, N.eqb_eq, IH. split.
      * intros [-> [rest ->]]. eauto.
      * intros [rest E]. injection E as -> ->. eauto.
Qed.

(** ** Trimming *)

Lemma trimStart_split (s : jsstring) :
  exists pre, s = pre ++ trimStart s
              /\ Forall (fun c => isWhiteSpace c = true) pre.
Proof.
  induction s as [|c s [pre [E F]]]; simpl.
  - exists []; auto.
  - destruct (isWhiteSpace c) eqn:W.
    + exists (c :: pre). split; [simpl; congruence | constructor; auto].
    + exists []; auto.
Qed.

Lemma trimStart_head (s : jsstring) :
  match trimStart s with
  | [] => True
  | c :: _ => isWhiteSpace c = false
  end.
Proof.
  induction s as [|c s IH]; simpl; auto.
  destruct (isWhiteSpace c) eqn:W; auto.
Qed.

Lemma trimStart_fixed (c : N) (s : jsstring) :
  isWhiteSpace c = false -> trimStart (c :: s) = c :: s.
Proof. intros W; simpl; rewrite W; reflexivity. Qed.

Lemma trimStart_idempotent (s : jsstring) :
  trimStart (trimStart s) = trimStart s.
Proof.
  pose proof (trimStart_head s) as H.
  destruct (trimStart s) as [|c t]; [reflexivity|].
  apply trimStart_fixed; assumption.
Qed.

(** White space before a block that starts with a visible unit. *)
Lemma trimStart_app (a : jsstring) (c : N) (b : jsstring) :
  isWhiteSpace c = false ->
  trimStart (a ++ c :: b) = trimStart a ++ c :: b.
Proof.
  intros W; induction a as [|d a IH]; simpl.
  - rewrite W; reflexivity.
  - destruct (isWhiteSpace d); auto.
Qed.

Lemma trimEnd_split (s : jsstring) :
  exists post, s = trimEnd s ++ post
               /\ Forall (fun c => isWhiteSpace c = true) post.
Proof.
  unfold trimEnd.
  destruct (trimStart_split (rev s)) as [pre [E F]].
  exists (rev pre). split.
  - rewrite <- rev_app_distr, <- E, rev_involutive; reflexivity.
  - apply Forall_rev; assumption.
Qed.

Lemma trimEnd_idempotent (s : jsstring) : trimEnd (trimEnd s) = trimEnd s.
Proof.
  unfold trimEnd. rewrite rev_involutive, trimStart_idempotent; reflexivity.
Qed.

(** A visible first unit survives the trimming of the end. *)
Lemma trimEnd_cons (c : N) (s : jsstring) :
  isWhiteSpace c = false -> trimEnd (c :: s) = c :: trimEnd s.
Proof.
  intros W. unfold trimEnd. simpl rev.
  rewrite trimStart_app by assumption.
  rewrite rev_app_distr; reflexivity.
Qed.

Lemma trimEnd_app_visible (p s : jsstring) :
  Forall (fun c => isWhiteSpace c = false) p ->
  trimEnd (p ++ s) = p ++ trimEnd s.
Proof.
  induction 1 as [|c p W _ IH]; simpl; [reflexivity|].
  rewrite trimEnd_cons, IH; auto.
Qed.

Lemma trim_head (s : jsstring) :
  match trim s with
  | [] => True
  | c :: _ => isWhiteSpace c = false
  end.
Proof.
  unfold trim. pose proof (trimStart_head s) as H.
  destruct (trimStart s) as [|c t]; [exact I|].
  rewrite trimEnd_cons by assumption. assumption.
Qed.

Lemma trimStart_trim (s : jsstring) : trimStart (trim s) = trim s.
Proof.
  pose proof (trim_head s) as H.
  destruct (trim s) as [|c t]; [reflexivity|].
  apply trimStart_fixed; assumption.
Qed.

Lemma trimEnd_trim (s : jsstring) : trimEnd (trim s) = trim s.
Proof. unfold trim. apply trimEnd_idempotent. Qed.

Lemma trim_idempotent (s : jsstring) : trim (trim s) = trim s.
Proof.
  unfold trim at 1. rewrite trimStart_trim. apply trimEnd_trim.
Qed.

Lemma trim_infix (s : jsstring) : infix (trim s) s.
Proof.
  destruct (trimStart_split s) as [pre [E _]].
  destruct (trimEnd_split (trimStart s)) as [post [E' _]].
  exists pre, post. unfold trim. rewrite <- E'. assumption.
Qed.

(** Trimming keeps a prefix made of visible units. *)
Lemma trim_keeps_prefix (p s : jsstring) :
  Forall (fun c => isWhiteSpace c = false) p ->
  startsWith p s = true -> startsWith p (trim s) = true.
Proof.
  intros V H. apply startsWith_app in H as [rest ->].
  apply startsWith_app. unfold trim.
  destruct p as [|c p]; [eexists; reflexivity|].
  simpl app. inversion V; subst.
  rewrite trimStart_fixed by assumption.
  change (c :: p ++ rest) with ((c :: p) ++ rest).
  rewrite trimEnd_app_visible by assumption. eexists; reflexivity.
Qed.

Lemma http_visible : Forall (fun c => isWhiteSpace c = false) (js "http").
Proof. repeat constructor. Qed.

(** A string trims to nothing exactly when it is all white space. *)
Lemma trimStart_nil (s : jsstring) :
  trimStart s = [] <-> Forall (fun c => isWhiteSpace c = true) s.
Proof.
  induction s as [|c s IH]; simpl.
  - split; auto.
  - destruct (isWhiteSpace c) eqn:W.
    + rewrite IH. split; [constructor; auto | inversion 1; auto].
    + split; [discriminate | inversion 1; congruence].
Qed.

Lemma trim_nil (s : jsstring) :
  trim s = [] <-> Forall (fun c => isWhiteSpace c = true) s.
Proof.
  rewrite <- trimStart_nil. unfold trim. split.
  - intros E. pose proof (trimStart_head s) as H.
    destruct (trimStart s) as [|c t]; [reflexivity|].
    rewrite trimEnd_cons in E by assumption. discriminate.
  - intros ->. reflexivity.
Qed.

End StringFacts.

(* ================================================================== *)
(** * Facts about the clean-up chain *)
(* ================================================================== *)

Section CleanUpFacts.

Lemma infix_trans (x y z : jsstring) : infix x y -> infix y z -> infix x z.
Proof.
  intros [a [b ->]] [c [d ->]].
  exists (c ++ a), (b ++ d). repeat rewrite <- app_assoc. reflexivity.
Qed.

Lemma infix_firstn (n : nat) (s : jsstring) : infix (firstn n s) s.
Proof.
  exists [], (skipn n s). simpl. symmetry. apply firstn_skipn.
Qed.

Lemma infix_cons (a c : N) (x s : jsstring) :
  infix (a :: x) (c :: s) ->
  (c = a /\ exists post, s = x ++ post) \/ infix (a :: x) s.
Proof.
  intros [[|p pre] [post E]]; simpl in E; injection E as -> ->.
  - left. eauto.
  - right. exists pre, post. reflexivity.
Qed.

Lemma spaces_only_infix (x s : jsstring) :
  infix x s -> spaces_only s -> spaces_only x.
Proof.
  intros [pre [post ->]] H. unfold spaces_only in *.
  apply Forall_app in H as [_ H]. apply Forall_app in H as [H _]. exact H.
Qed.

Lemma spaces_only_no_LF (s : jsstring) : spaces_only s -> ~ In LF s.
Proof.
  intros H I. unfold spaces_only in H. rewrite Forall_forall in H.
  specialize (H LF I eq_refl). discriminate.
Qed.

Lemma replace_ws_runs_from_spaces_only (b : bool) (s : jsstring) :
  spaces_only (replace_ws_runs_from b s).
Proof.
  revert b; induction s as [|c s IH]; intros b; simpl.
  - constructor.
  - destruct (isWhiteSpace c) eqn:W.
    + destruct b; [apply IH|]. constructor; [reflexivity | apply IH].
    + constructor; [congruence | apply IH].
Qed.

(** Inside a run nothing is emitted until a visible unit comes. *)
Lemma replace_ws_runs_from_true_head (s : jsstring) :
  match replace_ws_runs_from true s with
  | [] => True
  | c :: _ => isWhiteSpace c = false
  end.
Proof.
  induction s as [|c s IH]; simpl; auto.
  destruct (isWhiteSpace c) eqn:W; auto.
Qed.

Lemma replace_ws_runs_from_single (b : bool) (s : jsstring) :
  ~ has_double_space (replace_ws_runs_from b s).
Proof.
  unfold has_double_space.
  revert b; induction s as [|c s IH]; intros b; simpl.
  - intros [[|p pre] [post E]]; discriminate.
  - destruct (isWhiteSpace c) eqn:W.
    + destruct b; [apply IH|].
      intros H. apply infix_cons in H as [[_ [post E]] | H].
      * pose proof (replace_ws_runs_from_true_head s) as Hd.
        rewrite E in Hd. simpl in Hd. discriminate.
      * exact (IH true H).
    + intros H. apply infix_cons in H as [[-> _] | H].
      * discriminate.
      * exact (IH false H).
Qed.

(** Without a line feed the blank-line pattern has nothing to match. *)
Lemma replace_blank_lines_no_LF (s : jsstring) :
  ~ In LF s -> replace_blank_lines s = s.
Proof.
  unfold replace_blank_lines.
  induction s as [|c s IH]; simpl; intros H; [reflexivity|].
  destruct (N.eqb_spec c LF) as [->|_].
  - exfalso. apply H. left; reflexivity.
  - rewrite IH; [reflexivity|]. intros I. apply H. right; exact I.
Qed.

Lemma replace_blank_lines_idle (content : jsstring) :
  replace_blank_lines (replace_ws_runs content) = replace_ws_runs content.
Proof.
  apply replace_blank_lines_no_LF, spaces_only_no_LF.
  apply replace_ws_runs_from_spaces_only.
Qed.

Lemma cleanUp_eq (content : jsstring) :
  cleanUp content = slice0 4000 (trim (replace_ws_runs content)).
Proof. unfold cleanUp. rewrite replace_blank_lines_idle. reflexivity. Qed.

Lemma cleanUp_infix (content : jsstring) :
  infix (cleanUp content) (replace_ws_runs content).
Proof.
  rewrite cleanUp_eq. unfold slice0.
  eapply infix_trans; [apply infix_firstn | apply trim_infix].
Qed.

Lemma cleanUp_length (content : jsstring) :
  List.length (cleanUp content) <= 4000.
Proof. unfold cleanUp, slice0. apply firstn_le_length. Qed.

Lemma cleanUp_spaces_only (content : jsstring) :
  spaces_only (cleanUp content).
Proof.
  eapply spaces_only_infix; [apply cleanUp_infix|].
  apply replace_ws_runs_from_spaces_only.
Qed.

Lemma cleanUp_single_spaced (content : jsstring) :
  ~ has_double_space (cleanUp content).
Proof.
  intros H. apply (@replace_ws_runs_from_single false content).
  eapply infix_trans; [exact H | apply cleanUp_infix].
Qed.

Lemma cleanUp_no_LF (content : jsstring) : ~ In LF (cleanUp content).
Proof. apply spaces_only_no_LF, cleanUp_spaces_only. Qed.

Lemma cleanUp_no_blank_line_run (content : jsstring) :
  ~ has_blank_line_run (cleanUp content).
Proof.
  intros [pre [l1 [l2 [post [E _]]]]].
  apply (@cleanUp_no_LF content). rewrite E.
  apply in_or_app. right. left. reflexivity.
Qed.

Lemma cleanUp_trimStart (content : jsstring) :
  trimStart (cleanUp content) = cleanUp content.
Proof.
  rewrite cleanUp_eq. unfold slice0.
  pose proof (trim_head (replace_ws_runs content)) as H.
  destruct (trim (replace_ws_runs content)) as [|c t]; simpl.
  - reflexivity.
  - rewrite H. reflexivity.
Qed.

(** Short of the bound nothing was cut, so the end is trimmed too. *)
Lemma cleanUp_trim_below_bound (content : jsstring) :
  List.length (cleanUp content) < 4000 ->
  trim (cleanUp content) = cleanUp content.
Proof.
  rewrite cleanUp_eq. unfold slice0. intros L.
  rewrite length_firstn in L.
  rewrite firstn_all2 by lia. apply trim_idempotent.
Qed.

End CleanUpFacts.

(* ================================================================== *)
(** * Facts about lists and subsequences *)
(* ================================================================== *)

Section ListFacts.

Context {A : Type}.

Lemma Forall_firstn (P : A -> Prop) (n : nat) (l : list A) :
  Forall P l -> Forall P (firstn n l).
Proof.
  intros F. rewrite Forall_forall in *. intros x I.
  apply F. rewrite <- (firstn_skipn n l). apply in_or_app. left. exact I.
Qed.

Lemma subsequence_nil_l (l : list A) : subsequence [] l.
Proof. induction l; constructor; assumption. Qed.

Lemma subsequence_In (l m : list A) (x : A) :
  subsequence l m -> In x l -> In x m.
Proof.
  induction 1 as [|y l m _ IH|y l m _ IH]; simpl; auto.
  intros [E|I]; auto.
Qed.


Lemma subsequence_filter (f : A -> bool) (l : list A) :
  subsequence (filter f l) l.
Proof.
  induction l as [|x l IH]; simpl; [constructor|].
  destruct (f x); constructor; assumption.
Qed.

Lemma subsequence_map {B : Type} (g : A -> B) (l m : list A) :
  subsequence l m -> subsequence (map g l) (map g m).
Proof. induction 1; simpl; constructor; assumption. Qed.

End ListFacts.

(* ================================================================== *)
(** * Runs of the stages *)
(* ================================================================== *)

Ltac unfold_monad :=
  unfold console_error, sleep, load_text, first_content, request_json,
    chat_completions_create, fetch;
  unfold try_catch, bind, ret, throw, lift, emit.

Section Stages.

Variable w : World.

(** ** extractContent *)

Lemma extractContent_served (url : jsstring) (h : history)
      (r : Response) (doc : document) :
  http w h url = Some r -> ok r = true -> page r = Some doc ->
  extractContent w url h
  = (Return (cleanUp (mainContent (remove unwanted doc))), Fetched url :: h).
Proof.
  intros H O P. unfold extractContent. unfold_monad.
  rewrite H, O. simpl. rewrite P. reflexivity.
Qed.

(** The extractor always returns, and what it returns went through the
    clean-up chain. *)
Lemma extractContent_runs (url : jsstring) (h : history) :
  exists content h',
    extractContent w url h = (Return (cleanUp content), h').
Proof.
  unfold extractContent. unfold_monad.
  destruct (http w h url) as [r|].
  - destruct (ok r); simpl.
    + destruct (page r) as [doc|].
      * eexists _, _; reflexivity.
      * exists [], (Logged (js "Error extracting content from " ++ url ++ js ":")
                      :: Fetched url :: h); reflexivity.
    + exists [], (Logged (js "Error extracting content from " ++ url ++ js ":")
                    :: Fetched url :: h); reflexivity.
  - exists [], (Logged (js "Error extracting content from " ++ url ++ js ":")
                  :: Fetched url :: h); reflexivity.
Qed.

(** ** searchGoogle *)

Lemma parseResult_accepts (element : node) (r : SearchResult) :
  parseResult element = Some r <->
  exists href,
    attr (js "href") (first (find element (ByTag (js "a")))) = Some href
    /\ href <> [] /\ starts_with_http href
    /\ text (find element (ByTag (js "h3"))) <> []
    /\ text (find element (ByTagClass (js "div") (js "VwiC3b"))) <> []
    /\ r = {| title := trim (text (find element (ByTag (js "h3"))));
              url := trim href;
              snippet := trim (text (find element
                                       (ByTagClass (js "div") (js "VwiC3b")))) |}.
Proof.
  unfold parseResult, starts_with_http.
  destruct (attr (js "href") (first (find element (ByTag (js "a")))))
    as [href|].
  - split.
    + destruct (truthy href) eqn:Tu; cbn [andb]; [|discriminate].
      destruct (startsWith (js "http") href) eqn:Sw; cbn [andb];
        [|discriminate].
      destruct (truthy (text (find element (ByTag (js "h3"))))) eqn:Tt;
        cbn [andb]; [|discriminate].
      destruct (truthy (text (find element
                                (ByTagClass (js "div") (js "VwiC3b"))))) eqn:Ts;
        [|discriminate].
      intros E; injection E as <-.
      exists href. rewrite truthy_true in Tu, Tt, Ts. auto 10.
    + intros [href' [E [Nu [Sw [Nt [Ns ->]]]]]]. injection E as <-.
      rewrite <- truthy_true in Nu, Nt, Ns. rewrite Nu, Sw, Nt, Ns.
      reflexivity.
  - split; [discriminate | intros [href [E _]]; discriminate].
Qed.

Lemma parseResult_well_formed (element : node) (r : SearchResult) :
  parseResult element = Some r -> well_formed r.
Proof.
  intros H. apply parseResult_accepts in H
    as [href [_ [Nu [Sw [Nt [Ns ->]]]]]].
  assert (S : starts_with_http (trim href))
    by (apply trim_keeps_prefix; [apply http_visible | exact Sw]).
  unfold well_formed, is_trimmed; cbn [title url snippet].
  split; [|split; [|split; [|split; [|split]]]].
  - exists (text (find element (ByTag (js "h3")))), href,
      (text (find element (ByTagClass (js "div") (js "VwiC3b")))).
    auto 10.
  - intros E. unfold starts_with_http in S. rewrite E in S. discriminate.
  - exact S.
  - apply trim_idempotent.
  - apply trim_idempotent.
  - apply trim_idempotent.
Qed.

Lemma eachResult_well_formed (elements : list node)
      (results : list SearchResult) :
  Forall well_formed results ->
  Forall well_formed (eachResult elements results).
Proof.
  revert results; induction elements as [|e elements IH]; intros results F;
    simpl; [exact F|].
  apply IH. destruct (parseResult e) as [r|] eqn:P; [|exact F].
  apply Forall_app; split; [exact F|].
  constructor; [|constructor]. eapply parseResult_well_formed; eassumption.
Qed.

(** The search always returns the first eight entries of an [each] loop,
    over no container at all when the fetch fails. *)
Lemma searchGoogle_runs (query : jsval) (h : history) :
  exists elements h',
    searchGoogle w query h = (Return (firstn 8 (eachResult elements [])), h').
Proof.
  unfold searchGoogle. unfold_monad.
  destruct (match ToString query with
            | Return s => encodeURIComponent s
            | Throw e => Throw e
            end) as [encoded|e].
  - destruct (http w h _) as [r|].
    + destruct (ok r); cbn [negb].
      * destruct (page r) as [doc|].
        -- eexists _, _. reflexivity.
        -- eexists [], _. reflexivity.
      * eexists [], _. reflexivity.
    + eexists [], _. reflexivity.
  - eexists [], _. reflexivity.
Qed.

Lemma searchGoogle_well_formed (query : jsval) (h : history) :
  exists results h',
    searchGoogle w query h = (Return results, h')
    /\ Forall well_formed results.
Proof.
  destruct (searchGoogle_runs query h) as [elements [h' E]].
  eexists _, _. split; [exact E|].
  apply Forall_firstn, eachResult_well_formed. constructor.
Qed.

Lemma gatherSources_runs (searchQueries : list jsval)
      (allSources : list SearchResult) (h : history) :
  Forall well_formed allSources ->
  exists sources h',
    gatherSources w searchQueries allSources h = (Return sources, h')
    /\ Forall well_formed sources.
Proof.
  revert allSources h;
    induction searchQueries as [|q qs IH]; intros allSources h F; simpl.
  - eexists _, _. split; [reflexivity | exact F].
  - destruct (searchGoogle_well_formed q h) as [results [h1 [E G]]].
    unfold bind at 1. rewrite E. unfold bind at 1. unfold sleep, emit.
    apply IH. apply Forall_app; split; assumption.
Qed.

(** ** generateSearchQueries *)

Lemma generateSearchQueries_runs (query : jsval) (h : history) :
  exists queries h', generateSearchQueries w query h = (Return queries, h').
Proof.
  unfold generateSearchQueries. unfold_monad.
  destruct (ToString query) as [shown|e]; [|eexists _, _; reflexivity].
  destruct (completions w h _) as [r|]; [|eexists _, _; reflexivity].
  destruct (choices r) as [|c cs]; [eexists _, _; reflexivity|].
  destruct (message_content c) as [content|]; [|eexists _, _; reflexivity].
  destruct (truthy content); eexists _, _; reflexivity.
Qed.

End Stages.

Section Synthesis.

Variable w : World.

Lemma visits_sources (sources : list SearchResult) (h : history) :
  map fst (visits w sources h) = sources.
Proof.
  revert h; induction sources as [|s rest IH]; intros h; simpl;
    [reflexivity|].
  destruct (extractContent w (url s) h) as [o h']. simpl.
  rewrite IH. reflexivity.
Qed.

Lemma contributing_subsequence (vs : list (SearchResult * jsstring)) :
  subsequence (contributing vs) (map url (map fst vs)).
Proof.
  unfold contributing. rewrite map_map.
  apply subsequence_map, subsequence_filter.
Qed.

(** The loop always ends, and it appends to [citations] the URLs of the
    visits that delivered content. *)
Lemma processSources_runs (sources : list SearchResult)
      (sourceTexts citations : list jsstring) (h : history) :
  exists sourceTexts' h',
    processSources w sources (sourceTexts, citations) h
    = (Return (sourceTexts', citations ++ contributing (visits w sources h)),
       h').
Proof.
  revert sourceTexts citations h;
    induction sources as [|s rest IH]; intros sourceTexts citations h.
  - simpl. unfold ret, contributing. simpl. rewrite app_nil_r.
    eexists _, _; reflexivity.
  - destruct (extractContent_runs w (url s) h) as [c [h1 E]].
    cbn [processSources visits]. unfold_monad. rewrite E.
    unfold contributing. cbn [filter snd fst map].
    destruct (truthy (cleanUp c)).
    + destruct (IH (if truthy (snippet s)
                    then (sourceTexts ++
                            [js "Content from " ++ url s ++ js ":" ++ [LF]
                             ++ cleanUp c]) ++ [js "Snippet: " ++ snippet s]
                    else sourceTexts ++
                           [js "Content from " ++ url s ++ js ":" ++ [LF]
                            ++ cleanUp c])
                   (citations ++ [url s]) (Slept 500 :: h1))
        as [t' [h' E']].
      exists t', h'. rewrite E'. rewrite <- app_assoc. reflexivity.
    + destruct (IH (if truthy (snippet s)
                    then sourceTexts ++ [js "Snippet: " ++ snippet s]
                    else sourceTexts)
                   citations (Slept 500 :: h1))
        as [t' [h' E']].
      exists t', h'. rewrite E'. reflexivity.
Qed.

(** The synthesis always returns; it returns the citations of the loop
    unless the completion stage failed, and then the fixed error text
    without citations. *)
Lemma synthesizeInformation_runs (query : jsval)
      (sources : list SearchResult) (h : history) :
  exists answer citations h',
    synthesizeInformation w query sources h = (Return (answer, citations), h')
    /\ (citations = contributing (visits w sources h)
        \/ (answer = js "Error synthesizing information."
            /\ citations = [])).
Proof.
  destruct (processSources_runs sources [] [] h) as [texts [h1 E]].
  unfold synthesizeInformation. unfold_monad. rewrite E.
  cbn [app]. destruct (ToString query) as [shown|e].
  - destruct (completions w h1 _) as [r|].
    + destruct (choices r) as [|c cs].
      * eexists _, _, _. split; [reflexivity | right; auto].
      * eexists _, _, _. split; [reflexivity | left; reflexivity].
    + eexists _, _, _. split; [reflexivity | right; auto].
  - eexists _, _, _. split; [reflexivity | right; auto].
Qed.

End Synthesis.

Section Orchestration.

Variable w : World.

Lemma readable_query (value : jsval) :
  readable (Some value) = true ->
  exists query, destructure_query value = Return query.
Proof.
  destruct value; simpl; try discriminate; intros _; eexists; reflexivity.
Qed.

Lemma unreadable_body (request : Request) :
  readable (json_body request) = false ->
  json_body request = None
  \/ exists value, json_body request = Some value
                   /\ destructure_query value = Throw TypeError.
Proof.
  destruct (json_body request) as [value|]; [|auto].
  destruct value; simpl; try discriminate; intros _; right; eauto.
Qed.

(** A readable request runs the three stages in order and answers 200
    with what they delivered. *)
Lemma POST_readable (request : Request) (h : history)
      (value query : jsval) :
  json_body request = Some value ->
  destructure_query value = Return query ->
  exists queries h1 sources h2 answer citations h3,
    generateSearchQueries w query h = (Return queries, h1)
    /\ gatherSources w queries [] h1 = (Return sources, h2)
    /\ Forall well_formed sources
    /\ synthesizeInformation w query sources h2
       = (Return (answer, citations), h3)
    /\ POST w request h = (Return (success query answer citations queries), h3).
Proof.
  intros B D.
  destruct (generateSearchQueries_runs w query h) as [queries [h1 G]].
  destruct (gatherSources_runs w queries (allSources := []) h1 (Forall_nil _))
    as [sources [h2 [S F]]].
  destruct (synthesizeInformation_runs w query sources h2)
    as [answer [citations [h3 [Y _]]]].
  exists queries, h1, sources, h2, answer, citations, h3.
  repeat (split; [assumption|]).
  unfold POST. unfold_monad. rewrite B, D, G, S, Y. reflexivity.
Qed.

Lemma POST_unreadable (request : Request) (h : history) :
  readable (json_body request) = false ->
  POST w request h
  = (Return failure, Logged (js "Error processing search:") :: h).
Proof.
  intros U. unfold POST. unfold_monad.
  destruct (unreadable_body request U) as [B | [value [B D]]].
  - rewrite B. reflexivity.
  - rewrite B, D. reflexivity.
Qed.

Lemma citations_of_success (query : jsval) (answer : jsstring)
      (citations : list jsstring) (searchQueries : list jsval) :
  citations_of (success query answer citations searchQueries)
  = map VString citations.
Proof. reflexivity. Qed.

End Orchestration.

(* ================================================================== *)
(** * Lines of a completion *)
(* ================================================================== *)

Section Lines.

Lemma split_In (sep c : N) (s line : jsstring) :
  In line (split sep s) -> In c line -> In c s.
Proof.
  revert line; induction s as [|d s IH]; intros line; simpl.
  - intros [<-|[]] [].
  - destruct (N.eqb_spec d sep) as [->|_].
    + intros [<-|I] J; [destruct J|]. right. eapply IH; eassumption.
    + destruct (split sep s) as [|l r].
      * intros [<-|[]] [<-|[]]. left; reflexivity.
      * intros [<-|I] J.
        -- destruct J as [<-|J]; [left; reflexivity|].
           right. apply (IH l); [left; reflexivity | exact J].
        -- right. apply (IH line); [right; exact I | exact J].
Qed.

Lemma split_covers (sep c : N) (s : jsstring) :
  In c s -> c <> sep -> exists line, In line (split sep s) /\ In c line.
Proof.
  intros I Nsep. induction s as [|d s IH]; [destruct I|]. simpl.
  destruct (N.eqb_spec d sep) as [->|Nd].
  - destruct I as [->|I]; [congruence|].
    destruct (IH I) as [line [L C]]. exists line. split; [right|]; assumption.
  - destruct I as [->|I].
    + destruct (split sep s) as [|l r]; eexists;
        (split; [left; reflexivity | left; reflexivity]).
    + destruct (IH I) as [line [L C]].
      destruct (split sep s) as [|l r]; [destruct L|].
      destruct L as [->|L].
      * exists (d :: line). split; [left; reflexivity | right; exact C].
      * exists line. split; [right; exact L | exact C].
Qed.

Lemma visible_trim (line : jsstring) :
  truthy (trim line) = true <->
  exists c, In c line /\ isWhiteSpace c = false.
Proof.
  rewrite truthy_true, trim_nil. split.
  - intros NF. induction line as [|d line IH].
    + exfalso. apply NF. constructor.
    + destruct (isWhiteSpace d) eqn:W.
      * destruct IH as [c [I V]].
        -- intros F. apply NF. constructor; assumption.
        -- exists c. split; [right|]; assumption.
      * exists d. split; [left; reflexivity | exact W].
  - intros [c [I V]] F. rewrite Forall_forall in F.
    rewrite (F c I) in V. discriminate.
Qed.

(** Some line of [content] survives the filter exactly when [content]
    has a visible unit. *)
Lemma lines_kept (content : jsstring) :
  filter (fun q => truthy (trim q)) (split LF content) <> []
  <-> exists c, In c content /\ isWhiteSpace c = false.
Proof.
  split.
  - intros NE.
    destruct (filter (fun q => truthy (trim q)) (split LF content))
      as [|line rest] eqn:E; [congruence|].
    assert (I : In line (filter (fun q => truthy (trim q)) (split LF content)))
      by (rewrite E; left; reflexivity).
    apply filter_In in I as [I T]. apply visible_trim in T as [c [J V]].
    exists c. split; [|exact V]. eapply split_In; eassumption.
  - intros [c [I V]].
    destruct (@split_covers LF c content I) as [line [L C]].
    + intros ->. discriminate.
    + assert (K : In line (filter (fun q => truthy (trim q))
                                  (split LF content))).
      { apply filter_In. split; [exact L|]. apply visible_trim. eauto. }
      intros E. rewrite E in K. destruct K.
Qed.

End Lines.

(* ================================================================== *)
(** * Properties of the pipeline *)
(* ================================================================== *)

Section Citations.

Variable w : World.

(** Whatever happens, the citations are source URLs in source order. *)
Lemma synthesizeInformation_subsequence (query : jsval)
      (sources : list SearchResult) (h : history) :
  exists answer citations h',
    synthesizeInformation w query sources h = (Return (answer, citations), h')
    /\ subsequence citations (map url sources).
Proof.
  destruct (synthesizeInformation_runs w query sources h)
    as [answer [citations [h' [E [-> | [_ ->]]]]]];
    exists answer; eexists _, h'; (split; [exact E|]).
  - rewrite <- (visits_sources w sources h) at 2.
    apply contributing_subsequence.
  - apply subsequence_nil_l.
Qed.


End Citations.




(** The expansion always returns.  When the completion call fails or
    delivers no content (no choice, [null] or the empty string) the result
    is the question alone, verbatim.  Otherwise it is the lines of the
    content that are not blank, in order; that sequence is non-empty
    exactly when the content has a unit that is not white space. *)
Lemma generateSearchQueries_result (w : World) (query : jsval) (h : history) :
  exists queries h',
    generateSearchQueries w query h = (Return queries, h')
    /\ match expansion_content w query h with
       | None | Some [] => queries = [query]
       | Some content =>
           queries = map VString (filter (fun q => truthy (trim q))
                                         (split LF content))
           /\ (queries <> [] <->
               exists c, In c content /\ isWhiteSpace c = false)
       end.
Proof.
  unfold generateSearchQueries, expansion_content. unfold_monad.
  destruct (ToString query) as [shown|e];
    [|eexists _, _; split; reflexivity].
  destruct (completions w h _) as [r|];
    [|eexists _, _; split; reflexivity].
  destruct (choices r) as [|c cs]; [eexists _, _; split; reflexivity|].
  destruct (message_content c) as [content|];
    [|eexists _, _; split; reflexivity].
  destruct content as [|d content]; [eexists _, _; split; reflexivity|].
  cbn [truthy]. eexists _, _. split; [reflexivity|]. split; [reflexivity|].
  rewrite <- lines_kept. split.
  - intros NE E. apply NE. rewrite E. reflexivity.
  - intros NE E. apply NE. eapply map_eq_nil. exact E.
Qed.

(** C2 at a failing input.  The completion arrives and its content is a
    single line feed: the content is not empty, so the fallback to the
    question is not taken, and no line survives the filter.  The expansion
    returns the empty sequence, where the claim promises a non-empty
    one. *)
Lemma generateSearchQueries_blank_completion :
  expansion_content blank_reply (VString (js "boil?")) [] = Some [LF]
  /\ exists h',
       generateSearchQueries blank_reply (VString (js "boil?")) []
       = (Return [], h').
Proof.
  split; [reflexivity|]. eexists. vm_compute. reflexivity.
Qed.





(** C4 (as amended).  The handler always answers.  It answers 500 with
    the [error] body exactly when the body cannot be read at all: it is
    not JSON, or it is [null], so that destructuring it throws.  For every
    other body, a JSON object without a [query] field included, the
    question is [undefined] or whatever the field holds, the stages absorb
    their own failures, and the answer is 200 with the fields [answer],
    [citations] and [searchQueriesUsed] (and [query], which the
    serialization leaves out when it is [undefined]) and no [error]
    field. *)
Theorem POST_status (w : World) (request : Request) (h : history) :
  exists response h',
    POST w request h = (Return response, h')
    /\ if readable (json_body request)
       then status response = 200
            /\ has_field "error" response = false
            /\ has_field "answer" response = true
            /\ has_field "citations" response = true
            /\ has_field "searchQueriesUsed" response = true
       else response = failure.
Proof.
  destruct (readable (json_body request)) eqn:R.
  - destruct (json_body request) as [value|] eqn:B; [|discriminate R].
    destruct (readable_query value R) as [query D].
    destruct (POST_readable w request h B D)
      as [queries [h1 [sources [h2 [answer [citations [h3 [_ [_ [_ [_ E]]]]]]]]]]].
    eexists _, _. split; [exact E|]. repeat split.
  - eexists _, _. split; [apply POST_unreadable; exact R | reflexivity].
Qed.

(** C4 (as stated) fails: the body [{}] has no [query] field, and the
    handler answers 200 without an [error] field, even with every
    outbound service down. *)
Lemma POST_without_query_answers_200 :
  lacks_query (VObject []) = true
  /\ exists response h',
       POST offline (request (VObject [])) [] = (Return response, h')
       /\ status response = 200
       /\ has_field "error" response = false.
Proof.
  split; [reflexivity|].
  eexists _, _. split; [vm_compute; reflexivity|]. split; reflexivity.
Qed.

Section Selection.

Variable doc : document.

(** The loop stops at the first selector whose selection is not empty. *)
Lemma trySelectors_find (selectors : list selector) :
  trySelectors doc selectors
  = match List.find (fun sel => (0 <? List.length (select doc sel))%nat)
                    selectors with
    | Some sel => trim (text (select doc sel))
    | None => []
    end.
Proof.
  induction selectors as [|sel rest IH]; simpl; [reflexivity|].
  destruct (0 <? List.length (select doc sel))%nat; [reflexivity | exact IH].
Qed.

End Selection.

(** C5 (as amended).  After the removal of the non-content elements, the
    first selector of the fixed list that matches any element at all
    decides: the candidate content is the text of all its matched elements
    together, trimmed, and no later selector is consulted.  The paragraph
    fallback (the trimmed texts of the paragraphs longer than 50 units,
    joined with blank lines) is used exactly when no selector matches an
    element or the candidate is empty.  The result is the clean-up of that
    content. *)
Theorem extractContent_selection
        (w : World) (url : jsstring) (h : history)
        (r : Response) (loaded : document) :
  http w h url = Some r -> ok r = true -> page r = Some loaded ->
  let doc := remove unwanted loaded in
  let fallback := join [LF; LF] (paragraphs doc) in
  let content :=
    match List.find (fun sel => (0 <? List.length (select doc sel))%nat)
                    contentSelectors with
    | Some sel =>
        let candidate := trim (text (select doc sel)) in
        if truthy candidate then candidate else fallback
    | None => fallback
    end in
  extractContent w url h = (Return (cleanUp content), Fetched url :: h).
Proof.
  intros H O P doc fallback content.
  rewrite (extractContent_served w url h H O P). fold doc.
  replace (mainContent doc) with content; [reflexivity|].
  unfold mainContent, content, fallback. rewrite trySelectors_find.
  destruct (List.find _ contentSelectors) as [sel|]; [|reflexivity].
  destruct (truthy (trim (text (select doc sel)))); reflexivity.
Qed.

Lemma extractContent_selection_witness :
  extractContent answering (js "http://a.example/") []
  = (Return (js "Water boils at 100 degrees at sea level."),
     [Fetched (js "http://a.example/")]).
Proof.
  exact (@extractContent_selection answering (js "http://a.example/") []
           (served boiling) boiling eq_refl eq_refl eq_refl).
Defined.

(** C5 (as stated) fails: with an empty [article] before a [main] that
    holds text, [main] is the first selector that matches a non-empty
    element, yet the content is not its text.  [article] matched, so the
    loop stopped there with an empty candidate, and the paragraphs were
    used although a selector, and even one with text, had matched. *)
Lemma extractContent_empty_article :
  selection_by_nonempty_element (remove unwanted empty_article) = js "Hello"
  /\ (0 <? List.length (select (remove unwanted empty_article)
                                (ByTag (js "article"))))%nat = true
  /\ text (select (remove unwanted empty_article) (ByTag (js "article"))) = []
  /\ mainContent (remove unwanted empty_article)
     = js "Water boils at one hundred degrees Celsius at sea level."
  /\ extractContent (world two_results empty_article None)
                    (js "http://a.example/") []
     = (Return (js "Water boils at one hundred degrees Celsius at sea level."),
        [Fetched (js "http://a.example/")]).
Proof.
  repeat split; vm_compute; reflexivity.
Qed.

(** C6 (as amended).  For every page the extractor returns a string of at
    most 4000 units that has no line feed, hence no blank line, no white
    space other than single spaces, and no white space at its start.  The
    trimming comes before the cut to 4000 units, so the end is trimmed only
    when nothing was cut: a result shorter than 4000 units is trimmed. *)
Theorem extractContent_normalized (w : World) (url : jsstring) (h : history) :
  exists s h',
    extractContent w url h = (Return s, h')
    /\ List.length s <= 4000
    /\ trimStart s = s
    /\ (List.length s < 4000 -> is_trimmed s)
    /\ spaces_only s
    /\ ~ has_double_space s
    /\ ~ has_blank_line_run s.
Proof.
  destruct (extractContent_runs w url h) as [content [h' E]].
  exists (cleanUp content), h'. split; [exact E|].
  split; [apply cleanUp_length|].
  split; [apply cleanUp_trimStart|].
  split; [apply cleanUp_trim_below_bound|].
  split; [apply cleanUp_spaces_only|].
  split; [apply cleanUp_single_spaced | apply cleanUp_no_blank_line_run].
Qed.

(** C6 (as stated) fails: when unit 4000 of the trimmed text is a space
    between two words, the cut leaves that space at the end of the
    result. *)
Lemma extractContent_cut_after_space :
  exists s h',
    extractContent (world two_results long_article None)
                   (js "http://a.example/") [] = (Return s, h')
    /\ List.length s = 4000
    /\ s = repeat 120%N 3999 ++ [SPACE]
    /\ trim s <> s.
Proof.
  exists (repeat 120%N 3999 ++ [SPACE]), [Fetched (js "http://a.example/")].
  split; [vm_compute; reflexivity|].
  split; [vm_compute; reflexivity|].
  split; [reflexivity|].
  intros E.
  assert (D : Nat.eqb (List.length (trim (repeat 120%N 3999 ++ [SPACE])))
                      (List.length (repeat 120%N 3999 ++ [SPACE])) = false)
    by (vm_compute; reflexivity).
  rewrite E, Nat.eqb_refl in D. discriminate D.
Qed.

(** C7 (as amended).  For every question and every list of sources the
    synthesis returns, and its citations are URLs of the sources in source
    order.  When the completion of the synthesis request arrives, they are
    exactly the URLs of the visits for which the extractor returned
    content, one per visit; when it does not, there are none, whatever
    the extractor returned. *)
Theorem synthesizeInformation_citations
        (w : World) (query : jsval) (sources : list SearchResult)
        (h : history) :
  exists answer citations h',
    synthesizeInformation w query sources h = (Return (answer, citations), h')
    /\ subsequence citations (map url sources)
    /\ citations = if synthesis_completes w query sources h
                   then contributing (visits w sources h)
                   else [].
Proof.
  destruct (processSources_runs w sources [] [] h) as [texts [h1 E]].
  assert (S : subsequence (contributing (visits w sources h))
                          (map url sources)).
  { rewrite <- (visits_sources w sources h) at 2.
    apply contributing_subsequence. }
  unfold synthesizeInformation, synthesis_completes. unfold_monad.
  rewrite E. cbn [app]. destruct (ToString query) as [shown|e].
  - destruct (completions w h1 _) as [r|].
    + destruct (choices r) as [|c cs].
      * eexists _, _, _. split; [reflexivity|].
        split; [apply subsequence_nil_l | reflexivity].
      * eexists _, _, _. split; [reflexivity|].
        split; [exact S | reflexivity].
    + eexists _, _, _. split; [reflexivity|].
      split; [apply subsequence_nil_l | reflexivity].
  - eexists _, _, _. split; [reflexivity|].
    split; [apply subsequence_nil_l | reflexivity].
Qed.

(** C7 (as stated) fails: with the completion service down, the extractor
    returns content for both sources and neither URL is cited. *)
Lemma synthesizeInformation_uncited_content :
  contributing (visits mute two_sources [])
  = [js "http://a.example/"; js "http://b.example/"]
  /\ exists answer h',
       synthesizeInformation mute (VString (js "boil?")) two_sources []
       = (Return (answer, []), h').
Proof.
  split; [vm_compute; reflexivity|].
  eexists _, _. vm_compute. reflexivity.
Qed.

(** C8.  The synthesis never raises.  When the completion call of the
    synthesis stage fails, it returns the fixed error text with no
    citation; when the completion arrives with [null] content, it returns
    the fixed fallback text with the citations the loop accumulated. *)
Theorem synthesizeInformation_degrades
        (w : World) (query : jsval) (sources : list SearchResult)
        (h : history) (sourceTexts citations : list jsstring) (h1 : history)
        (shown : jsstring) :
  processSources w sources ([], []) h
  = (Return (sourceTexts, citations), h1) ->
  ToString query = Return shown ->
  let request := synthesisMessages shown sourceTexts in
  let h2 := Completed (js "gpt-4o") request :: h1 in
  (exists result h',
     synthesizeInformation w query sources h = (Return result, h'))
  /\ (completions w h1 request = None ->
      synthesizeInformation w query sources h
      = (Return (js "Error synthesizing information.", []),
         Logged (js "Error synthesizing information:") :: h2))
  /\ (forall r c cs,
        completions w h1 request = Some r ->
        choices r = c :: cs ->
        message_content c = None ->
        synthesizeInformation w query sources h
        = (Return (js "No content available", citations), h2)).
Proof.
  intros P T request h2. split; [|split].
  - destruct (synthesizeInformation_runs w query sources h)
      as [answer [cites [h' [E _]]]].
    eexists _, _. exact E.
  - intros F. unfold synthesizeInformation. unfold_monad.
    rewrite P, T. fold request. rewrite F. reflexivity.
  - intros r c cs F C N. unfold synthesizeInformation. unfold_monad.
    rewrite P, T. fold request. rewrite F, C, N. reflexivity.
Qed.

Lemma synthesizeInformation_degrades_witness :
  (exists h',
     synthesizeInformation mute (VString (js "boil?")) two_sources []
     = (Return (js "Error synthesizing information.", []), h'))
  /\ (exists h',
        synthesizeInformation speechless (VString (js "boil?")) two_sources []
        = (Return (js "No content available",
                   [js "http://a.example/"; js "http://b.example/"]), h')).
Proof.
  split.
  - eexists.
    eapply (proj1 (proj2 (@synthesizeInformation_degrades
                     mute (VString (js "boil?")) two_sources []
                     _ _ _ _ ltac:(vm_compute; reflexivity) eq_refl))).
    reflexivity.
  - eexists.
    eapply (proj2 (proj2 (@synthesizeInformation_degrades
                     speechless (VString (js "boil?")) two_sources []
                     _ _ _ _ ltac:(vm_compute; reflexivity) eq_refl))).
    + reflexivity.
    + reflexivity.
    + reflexivity.
Defined.

Lemma split_single_line (s : jsstring) : ~ In LF s -> split LF s = [s].
Proof.
  induction s as [|c s IH]; simpl; intros H; [reflexivity|].
  destruct (N.eqb_spec c LF) as [->|_].
  - exfalso. apply H. left; reflexivity.
  - rewrite IH; [reflexivity|]. intros I. apply H. right; exact I.
Qed.

(** C9.  The string the extractor returns never contains a line feed, nor
    any other line terminator: the first replacement turns every run of
    white space, line feeds and the separators of the paragraph fallback
    included, into one space.  So the second replacement finds nothing to
    collapse, and the result is a single line. *)
Theorem extractContent_single_line :
  (forall content,
     replace_blank_lines (replace_ws_runs content) = replace_ws_runs content)
  /\ (forall (w : World) (url : jsstring) (h : history),
        exists s h',
          extractContent w url h = (Return s, h')
          /\ ~ In LF s
          /\ spaces_only s
          /\ split LF s = [s]).
Proof.
  split; [exact replace_blank_lines_idle|].
  intros w url h.
  destruct (extractContent_runs w url h) as [content [h' E]].
  exists (cleanUp content), h'. split; [exact E|].
  split; [apply cleanUp_no_LF|].
  split; [apply cleanUp_spaces_only|].
  apply split_single_line, cleanUp_no_LF.
Qed.

(** C10.  Every entry of the [citations] of a response is a string that
    starts with [http] and equals its own trimmed form: citations are
    copied from the URLs of the sources, and the parser only admits the
    trimmed form of a link target that starts with [http]. *)
Theorem POST_citations_are_trimmed_http_urls
        (w : World) (request : Request) (h : history) :
  exists response h',
    POST w request h = (Return response, h')
    /\ Forall (fun v => exists u, v = VString u
                                  /\ starts_with_http u /\ is_trimmed u)
              (citations_of response).
Proof.
  destruct (readable (json_body request)) eqn:R.
  - destruct (json_body request) as [value|] eqn:B; [|discriminate R].
    destruct (readable_query value R) as [query D].
    destruct (POST_readable w request h B D)
      as [queries [h1 [sources [h2 [answer [citations [h3
            [_ [_ [W [Y E]]]]]]]]]]].
    eexists _, _. split; [exact E|].
    rewrite citations_of_success.
    destruct (synthesizeInformation_subsequence w query sources h2)
      as [answer' [citations' [h3' [Y' S]]]].
    rewrite Y in Y'. injection Y' as _ <- _.
    apply Forall_map. rewrite Forall_forall. intros u I.
    exists u. split; [reflexivity|].
    apply (@subsequence_In _ _ _ u S), in_map_iff in I as [source [<- J]].
    rewrite Forall_forall in W. destruct (W source J) as [_ [_ [H [_ [T _]]]]].
    split; assumption.
  - eexists _, _. split; [apply POST_unreadable; exact R|].
    constructor.
Qed.

(* ================================================================== *)
(** * Further properties: the clean-up as a list of words *)
(* ================================================================== *)

Section Words.

Lemma trimEnd_nil_iff (s : jsstring) :
  trimEnd s = [] <-> Forall (fun c => isWhiteSpace c = true) s.
Proof.
  unfold trimEnd. split.
  - intros E. apply (f_equal (@rev N)) in E. rewrite rev_involutive in E.
    simpl in E. apply trimStart_nil in E. apply Forall_rev in E.
    rewrite rev_involutive in E. exact E.
  - intros F. apply Forall_rev in F. apply trimStart_nil in F.
    rewrite F. reflexivity.
Qed.

(** A white-space unit before [x] goes with the end when [x] is blank, and
    stays otherwise. *)
Lemma trimEnd_ws_cons (c : N) (x : jsstring) :
  isWhiteSpace c = true ->
  trimEnd (c :: x) = match trimEnd x with
                     | [] => []
                     | y => c :: y
                     end.
Proof.
  intros W. destruct (trimEnd x) as [|d y] eqn:E.
  - apply trimEnd_nil_iff. constructor; [exact W|].
    apply trimEnd_nil_iff; exact E.
  - rewrite <- E. unfold trimEnd in *. simpl rev.
    destruct (trimStart_split (rev x)) as [pre [S F]].
    destruct (trimStart (rev x)) as [|e z] eqn:T.
    + simpl in E. discriminate E.
    + pose proof (trimStart_head (rev x)) as V. rewrite T in V.
      rewrite S. rewrite <- app_assoc. simpl app.
      rewrite trimStart_app by exact V.
      apply trimStart_nil in F. rewrite F. simpl app.
      change (e :: z ++ [c]) with ((e :: z) ++ [c]).
      rewrite rev_app_distr. reflexivity.
Qed.

Lemma words_from_nonempty (acc s : jsstring) :
  Forall (fun word => word <> []) (words_from acc s).
Proof.
  revert acc; induction s as [|c s IH]; intros acc; simpl.
  - destruct acc as [|a acc]; constructor; [|constructor].
    intros E. apply (f_equal (@List.length N)) in E.
    rewrite length_rev in E. discriminate E.
  - destruct (isWhiteSpace c).
    + destruct acc as [|a acc]; [apply IH|]. constructor; [|apply IH].
      intros E. apply (f_equal (@List.length N)) in E.
      rewrite length_rev in E. discriminate E.
    + apply IH.
Qed.

Lemma join_nil_iff (sep : jsstring) (parts : list jsstring) :
  Forall (fun word => word <> []) parts ->
  join sep parts = [] -> parts = [].
Proof.
  destruct parts as [|p rest]; [reflexivity|].
  intros F E. inversion F as [|? ? NE _]; subst. exfalso.
  destruct p as [|c p]; [congruence|].
  simpl in E. destruct rest; discriminate E.
Qed.

Lemma join_cons (sep p q : jsstring) (rest : list jsstring) :
  join sep (p :: q :: rest) = p ++ sep ++ join sep (q :: rest).
Proof. reflexivity. Qed.

(** The words of [s], joined by single spaces, are the white-space
    collapse of [s] without its ends; [acc] is a word being read. *)
Lemma join_words_from (s : jsstring) :
  join [SPACE] (words_from [] s) = trimEnd (replace_ws_runs_from true s)
  /\ forall a acc,
       join [SPACE] (words_from (a :: acc) s)
       = rev (a :: acc) ++ trimEnd (replace_ws_runs_from false s).
Proof.
  induction s as [|c s [IH0 IH1]].
  - split; [reflexivity|]. intros a acc. simpl words_from.
    cbn [join replace_ws_runs_from]. unfold trimEnd. simpl rev at 2.
    simpl trimStart. simpl rev at 2. rewrite app_nil_r. reflexivity.
  - split.
    + simpl. destruct (isWhiteSpace c) eqn:W.
      * exact IH0.
      * rewrite IH1. simpl rev. simpl app.
        rewrite trimEnd_cons by exact W. reflexivity.
    + intros a acc. simpl words_from. cbn [replace_ws_runs_from].
      destruct (isWhiteSpace c) eqn:W.
      * rewrite trimEnd_ws_cons by reflexivity. rewrite <- IH0.
        pose proof (words_from_nonempty [] s) as NE.
        destruct (words_from [] s) as [|wd rest] eqn:Ws.
        -- simpl. rewrite app_nil_r. reflexivity.
        -- destruct (join [SPACE] (wd :: rest)) as [|j js'] eqn:J.
           ++ apply join_nil_iff in J; [discriminate J | exact NE].
           ++ rewrite join_cons, J. reflexivity.
      * rewrite IH1. rewrite trimEnd_cons by exact W.
        simpl rev. repeat rewrite <- app_assoc. reflexivity.
Qed.

Lemma trim_replace_ws_runs (s : jsstring) :
  trim (replace_ws_runs s) = join [SPACE] (words s).
Proof.
  unfold words. rewrite (proj1 (join_words_from s)).
  unfold trim, replace_ws_runs.
  destruct s as [|c s]; [reflexivity|]. simpl.
  destruct (isWhiteSpace c) eqn:W.
  - cbn [trimStart]. change (isWhiteSpace SPACE) with true. cbv iota.
    pose proof (replace_ws_runs_from_true_head s) as H.
    destruct (replace_ws_runs_from true s) as [|d x]; [reflexivity|].
    rewrite trimStart_fixed by exact H. reflexivity.
  - rewrite trimStart_fixed by exact W. reflexivity.
Qed.

End Words.

Lemma cleanUp_joins_words (content : jsstring) :
  cleanUp content = firstn 4000 (join [SPACE] (words content)).
Proof.
  rewrite cleanUp_eq, trim_replace_ws_runs. reflexivity.
Qed.



(** X1.  Whatever page is served, the extractor keeps the words of the
    selected content and nothing else: it returns the first 4000 units of
    those words, in order, joined by single spaces.  Scripts, navigation
    and the like were removed before the selection. *)
Theorem extractContent_words
        (w : World) (url : jsstring) (h : history)
        (r : Response) (loaded : document) :
  http w h url = Some r -> ok r = true -> page r = Some loaded ->
  extractContent w url h
  = (Return (firstn 4000
               (join [SPACE] (words (mainContent (remove unwanted loaded))))),
     Fetched url :: h).
Proof.
  intros H O P. rewrite (extractContent_served w url h H O P).
  rewrite cleanUp_joins_words. reflexivity.
Qed.

Lemma extractContent_words_witness :
  extractContent (world two_results cluttered None) (js "http://a.example/") []
  = (Return (js "Water boils at 100 degrees."),
     [Fetched (js "http://a.example/")]).
Proof.
  exact (@extractContent_words (world two_results cluttered None)
           (js "http://a.example/") [] (served cluttered) cluttered
           eq_refl eq_refl eq_refl).
Defined.



(* ================================================================== *)
(** * Further properties: the removal of non-content elements *)
(* ================================================================== *)

Section Removal.

(** Induction on a node with its children as hypotheses. *)
Lemma node_children_ind (P : node -> Prop) :
  (forall data, P (Text data)) ->
  (forall data, P (Comment data)) ->
  (forall name attribs children,
      Forall P children -> P (Element name attribs children)) ->
  forall n, P n.
Proof.
  intros HT HC HE. fix IH 1. intros [data|data|name attribs children].
  - apply HT.
  - apply HC.
  - apply HE. induction children as [|c rest IHrest]; constructor.
    + apply IH.
    + exact IHrest.
Qed.

Variable sel : selector.

(** [sel] reads the name and the attributes of an element only. *)
Hypothesis shallow :
  forall name attribs children children',
    matches sel (Element name attribs children)
    = matches sel (Element name attribs children').

Lemma matches_prune (n : node) : matches sel (prune sel n) = matches sel n.
Proof. destruct n; simpl; try reflexivity. apply shallow. Qed.

(** No descendant of a pruned node matches. *)
Lemma prune_descendants (n : node) :
  Forall (fun x => matches sel x = false) (tl (subtree (prune sel n))).
Proof.
  induction n as [data|data|name attribs children IH]
    using node_children_ind; simpl; try constructor.
  induction children as [|c rest IHrest]; simpl; [constructor|].
  inversion IH as [|? ? Hc Hrest]; subst.
  destruct (matches sel c) eqn:Mc.
  - apply IHrest; assumption.
  - cbn [flat_map]. apply Forall_app. split; [|apply IHrest; assumption].
    destruct (subtree (prune sel c)) as [|x xs] eqn:S.
    + constructor.
    + assert (X : x = prune sel c).
      { destruct (prune sel c); simpl in S; injection S as <- _; reflexivity. }
      constructor.
      * rewrite X, matches_prune. exact Mc.
      * exact Hc.
Qed.

Lemma remove_no_match (doc : document) :
  Forall (fun x => matches sel x = false) (flat_map subtree (remove sel doc)).
Proof.
  induction doc as [|c rest IH]; simpl; [constructor|].
  destruct (matches sel c) eqn:Mc; [exact IH|].
  cbn [flat_map]. apply Forall_app. split; [|exact IH].
  pose proof (prune_descendants c) as D.
  destruct (subtree (prune sel c)) as [|x xs] eqn:S; [constructor|].
  assert (X : x = prune sel c).
  { destruct (prune sel c); simpl in S; injection S as <- _; reflexivity. }
  constructor; [rewrite X, matches_prune; exact Mc | exact D].
Qed.

(** A node none of whose descendants matches is left as it is. *)
Lemma prune_identity (n : node) :
  Forall (fun x => matches sel x = false) (tl (subtree n)) ->
  prune sel n = n.
Proof.
  induction n as [data|data|name attribs children IH]
    using node_children_ind; simpl; try reflexivity.
  intros F. f_equal.
  induction children as [|c rest IHrest]; [reflexivity|].
  inversion IH as [|? ? Hc Hrest]; subst.
  cbn [flat_map] in F. apply Forall_app in F as [Fc Frest].
  assert (Mc : matches sel c = false).
  { destruct c; simpl in Fc; inversion Fc; assumption. }
  rewrite Mc. rewrite Hc.
  - f_equal. apply IHrest; assumption.
  - destruct c; simpl in Fc |- *; inversion Fc; assumption.
Qed.

Lemma remove_identity (doc : document) :
  Forall (fun x => matches sel x = false) (flat_map subtree doc) ->
  remove sel doc = doc.
Proof.
  induction doc as [|c rest IH]; [reflexivity|].
  cbn [flat_map]. intros F. apply Forall_app in F as [Fc Frest].
  simpl.
  assert (Mc : matches sel c = false).
  { destruct c; simpl in Fc; inversion Fc; assumption. }
  rewrite Mc, IH by assumption. f_equal.
  apply prune_identity. destruct c; simpl in Fc |- *; inversion Fc; assumption.
Qed.

End Removal.

Lemma filter_none {A : Type} (f : A -> bool) (l : list A) :
  Forall (fun x => f x = false) l <-> filter f l = [].
Proof.
  induction l as [|x l IH]; simpl; [split; auto|].
  destruct (f x) eqn:E.
  - split; [inversion 1; congruence | discriminate].
  - rewrite <- IH. split; [inversion 1; assumption | constructor; assumption].
Qed.

(** X3.  After the removal step no [script], [style], [nav], [header],
    [footer], [aside], [iframe] or [img] element is left at any depth, so
    no selection made afterwards can reach one; and a page that has none
    of them goes through the step unchanged. *)
Theorem remove_unwanted_leaves_none (doc : document) :
  select (remove unwanted doc) unwanted = []
  /\ (select doc unwanted = [] -> remove unwanted doc = doc).
Proof.
  assert (Sh : forall name attribs children children',
             matches unwanted (Element name attribs children)
             = matches unwanted (Element name attribs children'))
    by reflexivity.
  split.
  - apply filter_none, remove_no_match, Sh.
  - intros E. apply remove_identity, filter_none. exact E.
Qed.

(* ================================================================== *)
(** * Further properties: the search *)
(* ================================================================== *)

Section SearchFacts.

Lemma eachResult_entries (elements : list node) (results : list SearchResult) :
  eachResult elements results = results ++ entries elements.
Proof.
  revert results; induction elements as [|e rest IH]; intros results;
    simpl; [rewrite app_nil_r; reflexivity|].
  rewrite IH. unfold entries. simpl.
  destruct (parseResult e); simpl; [rewrite <- app_assoc|]; reflexivity.
Qed.

Local Open Scope N_scope.

Lemma hexDigit_safe (d : N) : d < 16 -> isUriSafe (hexDigit d) = true.
Proof.
  intros H. unfold isUriSafe, uriUnreserved, hexDigit.
  destruct (N.ltb_spec d 10) as [L|L].
  - assert (E : (48 <=? 48 + d) && (48 + d <=? 57) = true)
      by (apply andb_true_iff; split; apply N.leb_le; lia).
    rewrite E. repeat rewrite orb_true_r. reflexivity.
  - assert (E : (65 <=? 55 + d) && (55 + d <=? 90) = true)
      by (apply andb_true_iff; split; apply N.leb_le; lia).
    rewrite E. reflexivity.
Qed.

Lemma percent_safe (octet : N) :
  octet < 256 -> Forall (fun c => isUriSafe c = true) (percent octet).
Proof.
  intros H. unfold percent. repeat constructor.
  - apply hexDigit_safe. apply N.Div0.div_lt_upper_bound. exact H.
  - apply hexDigit_safe. apply N.mod_upper_bound. discriminate.
Qed.

Lemma utf8_octets (cp : N) :
  cp < 1114112 -> Forall (fun o => o < 256) (utf8 cp).
Proof.
  intros H. unfold utf8.
  assert (M : cp mod 64 < 64) by (apply N.mod_upper_bound; discriminate).
  assert (M1 : (cp / 64) mod 64 < 64)
    by (apply N.mod_upper_bound; discriminate).
  assert (M2 : (cp / 4096) mod 64 < 64)
    by (apply N.mod_upper_bound; discriminate).
  destruct (N.ltb_spec cp 128) as [L1|L1];
    [repeat constructor; lia|].
  destruct (N.ltb_spec cp 2048) as [L2|L2].
  { assert (cp / 64 < 32) by (apply N.Div0.div_lt_upper_bound; exact L2).
    repeat constructor; lia. }
  destruct (N.ltb_spec cp 65536) as [L3|L3].
  { assert (cp / 4096 < 16) by (apply N.Div0.div_lt_upper_bound; exact L3).
    repeat constructor; lia. }
  assert (cp / 262144 < 5) by (apply N.Div0.div_lt_upper_bound; lia).
  repeat constructor; lia.
Qed.

Lemma percent_octets_safe (octets : list N) :
  Forall (fun o => o < 256) octets ->
  Forall (fun c => isUriSafe c = true) (flat_map percent octets).
Proof.
  induction 1 as [|o rest H _ IH]; [constructor|].
  cbn [flat_map].
  apply Forall_app. split; [apply percent_safe; exact H | exact IH].
Qed.

(** The encoding of a string holds unreserved characters and percent
    signs only. *)
Lemma encodeURIComponent_safe (n : nat) :
  forall s r,
    (List.length s <= n)%nat ->
    Forall (fun c => isCodeUnit c = true) s ->
    encodeURIComponent s = Return r ->
    Forall (fun c => isUriSafe c = true) r.
Proof.
  induction n as [|n IH]; intros s r L U E.
  - destruct s; [|simpl in L; lia]. injection E as <-. constructor.
  - destruct s as [|c t]; [injection E as <-; constructor|].
    simpl in L. inversion U as [|? ? Uc Ut]; subst.
    simpl in E. destruct (uriUnreserved c) eqn:Un.
    + destruct (encodeURIComponent t) as [r'|] eqn:Et; [|discriminate E].
      injection E as <-. constructor.
      * unfold isUriSafe. rewrite Un. reflexivity.
      * apply (IH t); [lia | exact Ut | exact Et].
    + destruct (isLowSurrogate c) eqn:Lo; [discriminate E|].
      destruct (isHighSurrogate c) eqn:Hi.
      * destruct t as [|d t']; [discriminate E|].
        destruct (isLowSurrogate d) eqn:Ld; [|discriminate E].
        destruct (encodeURIComponent t') as [r'|] eqn:Et; [|discriminate E].
        injection E as <-. apply Forall_app. split.
        -- apply percent_octets_safe, utf8_octets.
           unfold isHighSurrogate in Hi. unfold isLowSurrogate in Ld.
           apply andb_true_iff in Hi as [H1 H2].
           apply andb_true_iff in Ld as [H3 H4].
           apply N.leb_le in H1, H2, H3, H4. lia.
        -- inversion Ut; subst. simpl in L.
           apply (IH t'); [lia | assumption | exact Et].
      * destruct (encodeURIComponent t) as [r'|] eqn:Et; [|discriminate E].
        injection E as <-. apply Forall_app. split.
        -- apply percent_octets_safe, utf8_octets.
           unfold isCodeUnit in Uc. apply N.ltb_lt in Uc. lia.
        -- apply (IH t); [lia | exact Ut | exact Et].
Qed.

End SearchFacts.

(** X4.  When the results page is served, the search returns the first 8
    accepted containers of the page, in document order: nothing is
    reordered, merged or deduplicated, and a ninth accepted container is
    dropped. *)
Theorem searchGoogle_served
        (w : World) (query : jsval) (h : history) (e : jsstring)
        (r : Response) (doc : document) :
  encoded query = Return e ->
  http w h (searchUrl e) = Some r -> ok r = true -> page r = Some doc ->
  searchGoogle w query h
  = (Return (firstn 8 (entries (select doc (ByTagClass (js "div") (js "g"))))),
     Fetched (searchUrl e) :: h).
Proof.
  intros E H O P. unfold searchGoogle. unfold_monad.
  unfold encoded in E. rewrite E. fold (searchUrl e). rewrite H, O.
  cbn [negb]. rewrite P. rewrite eachResult_entries. reflexivity.
Qed.

Lemma searchGoogle_served_witness :
  searchGoogle answering (VString (js "boil?")) []
  = (Return two_sources,
     [Fetched (js "https://www.google.com/search?q=boil%3F&num=16")]).
Proof.
  exact (@searchGoogle_served answering (VString (js "boil?")) []
           (js "boil%3F") (served two_results) two_results
           eq_refl eq_refl eq_refl eq_refl).
Defined.

(** X5.  On any failure of a search (the question cannot be encoded, the
    fetch is rejected, the status is not ok or the body cannot be read)
    the search returns the empty list after logging one error; it does not
    raise, and a question that cannot be encoded is never sent. *)
Theorem searchGoogle_failure (w : World) (query : jsval) (h : history) :
  match encoded query with
  | Throw _ => True
  | Return e =>
      match http w h (searchUrl e) with
      | None => True
      | Some r => ok r = false \/ page r = None
      end
  end ->
  searchGoogle w query h
  = (Return [],
     Logged (js "Error searching Google:")
       :: match encoded query with
          | Throw _ => h
          | Return e => Fetched (searchUrl e) :: h
          end).
Proof.
  unfold searchGoogle, encoded. unfold_monad.
  destruct (match ToString query with
            | Return s => encodeURIComponent s
            | Throw e => Throw e
            end) as [e|x]; [|reflexivity].
  fold (searchUrl e). destruct (http w h (searchUrl e)) as [r|]; [|reflexivity].
  intros [O|P].
  - rewrite O. reflexivity.
  - destruct (ok r); cbn [negb]; [rewrite P|]; reflexivity.
Qed.

Lemma searchGoogle_failure_witness :
  searchGoogle offline (VString (js "boil?")) []
  = (Return [],
     [Logged (js "Error searching Google:");
      Fetched (js "https://www.google.com/search?q=boil%3F&num=16")])
  /\ searchGoogle answering (VString [55357%N]) []
     = (Return [], [Logged (js "Error searching Google:")]).
Proof.
  split.
  - exact (@searchGoogle_failure offline (VString (js "boil?")) [] I).
  - exact (@searchGoogle_failure answering (VString [55357%N]) [] I).
Defined.

(** X6.  A search fetches at most one address, and that address is the
    fixed prefix, the encoded question and the fixed suffix [&num=16].
    The encoded question holds unreserved characters and percent signs
    only, so the question cannot add a parameter to the address or cut it
    short. *)
Theorem searchGoogle_address
        (w : World) (query : jsval) (h : history) (s : jsstring) :
  ToString query = Return s ->
  Forall (fun c => isCodeUnit c = true) s ->
  exists results h',
    searchGoogle w query h = (Return results, h')
    /\ match encodeURIComponent s with
       | Return e =>
           fetches h' = fetches h ++ [searchUrl e]
           /\ Forall (fun c => isUriSafe c = true) e
       | Throw _ => fetches h' = fetches h
       end.
Proof.
  intros T U. unfold searchGoogle. unfold_monad. rewrite T.
  destruct (encodeURIComponent s) as [e|x] eqn:E.
  - assert (S : Forall (fun c => isUriSafe c = true) e)
      by (eapply encodeURIComponent_safe; [apply le_n | exact U | exact E]).
    fold (searchUrl e). destruct (http w h (searchUrl e)) as [r|].
    + destruct (ok r); cbn [negb].
      * destruct (page r); eexists _, _; (split; [reflexivity|]);
          (split; [reflexivity | exact S]).
      * eexists _, _. split; [reflexivity|]. split; [reflexivity | exact S].
    + eexists _, _. split; [reflexivity|]. split; [reflexivity | exact S].
  - eexists _, _. split; reflexivity.
Qed.

Lemma searchGoogle_address_witness :
  exists results h',
    searchGoogle answering (VString (js "a b&num=1#")) [] = (Return results, h')
    /\ fetches h' = [] ++ [searchUrl (js "a%20b%26num%3D1%23")]
    /\ Forall (fun c => isUriSafe c = true) (js "a%20b%26num%3D1%23").
Proof.
  exact (@searchGoogle_address answering (VString (js "a b&num=1#")) []
           (js "a b&num=1#") eq_refl
           ltac:(repeat constructor)).
Defined.

(* ================================================================== *)
(** * Further properties: the expanded queries *)
(* ================================================================== *)

Section SplitFacts.

Variable sep : N.

Lemma split_nonempty (s : jsstring) : split sep s <> [].
Proof.
  destruct s as [|c t]; simpl; [discriminate|].
  destruct (c =? sep)%N; [discriminate|].
  destruct (split sep t); discriminate.
Qed.

Lemma split_no_sep (s line : jsstring) :
  In line (split sep s) -> ~ In sep line.
Proof.
  revert line; induction s as [|c t IH]; intros line; simpl.
  - intros [<-|[]] [].
  - destruct (N.eqb_spec c sep) as [->|Nc].
    + intros [<-|I]; [intros [] | apply IH; exact I].
    + destruct (split sep t) as [|l r] eqn:S.
      * intros [<-|[]] [E|[]]. congruence.
      * intros [<-|I].
        -- intros [E|J]; [congruence|].
           apply (IH l); [left; reflexivity | exact J].
        -- apply IH. right; exact I.
Qed.

(** Joining the pieces with the separator gives the string back. *)
Lemma join_split (s : jsstring) : join [sep] (split sep s) = s.
Proof.
  induction s as [|c t IH]; simpl; [reflexivity|].
  destruct (N.eqb_spec c sep) as [->|Nc].
  - pose proof (split_nonempty t) as NE.
    destruct (split sep t) as [|q rest]; [congruence|].
    rewrite join_cons, IH. reflexivity.
  - destruct (split sep t) as [|l r]; [simpl in IH; subst; reflexivity|].
    destruct r as [|q rest].
    + simpl in IH |- *. rewrite IH. reflexivity.
    + rewrite join_cons in IH |- *. simpl. rewrite <- IH. reflexivity.
Qed.

Lemma join_infix (parts : list jsstring) (x line : jsstring) :
  In line parts -> infix line (join x parts).
Proof.
  induction parts as [|p rest IH]; [intros []|].
  intros [->|I].
  - destruct rest as [|q rest'].
    + exists [], []. simpl. rewrite app_nil_r. reflexivity.
    + rewrite join_cons. exists [], (x ++ join x (q :: rest')). reflexivity.
  - destruct rest as [|q rest']; [destruct I|].
    rewrite join_cons. destruct (IH I) as [pre [post E]].
    exists (p ++ x ++ pre), post. rewrite E.
    repeat rewrite <- app_assoc. reflexivity.
Qed.

Lemma split_infix (s line : jsstring) :
  In line (split sep s) -> infix line s.
Proof.
  intros I. rewrite <- (join_split s). apply join_infix. exact I.
Qed.

End SplitFacts.

(** X7.  When the completion of the expansion has content, the queries
    returned are exactly its non-blank lines, all of them and in their
    order, so their number is that of the non-blank lines, whatever the
    instruction asked for.  Every query is one whole line exactly as
    written there: no line feed inside, nothing trimmed or cut, at least
    one visible unit.  It took one completion request and no fetch. *)
Theorem generateSearchQueries_lines
        (w : World) (query : jsval) (h : history) (content : jsstring) :
  expansion_content w query h = Some content -> content <> [] ->
  exists lines h',
    generateSearchQueries w query h = (Return (map VString lines), h')
    /\ lines = filter (fun line => truthy (trim line)) (split LF content)
    /\ subsequence lines (split LF content)
    /\ Forall (fun line => ~ In LF line
                           /\ infix line content
                           /\ exists c, In c line /\ isWhiteSpace c = false)
              lines
    /\ completion_calls h' = S (completion_calls h)
    /\ fetches h' = fetches h.
Proof.
  unfold expansion_content, generateSearchQueries. unfold_monad.
  destruct (ToString query) as [shown|e]; [|discriminate].
  destruct (completions w h _) as [r|]; [|discriminate].
  destruct (choices r) as [|c cs]; [discriminate|].
  intros -> NE. apply truthy_true in NE. rewrite NE.
  eexists _, _. split; [reflexivity|].
  split; [reflexivity|].
  split; [apply subsequence_filter|].
  split; [|split; reflexivity].
  apply Forall_forall. intros line I. apply filter_In in I as [I V].
  split; [eapply split_no_sep; exact I|].
  split; [eapply split_infix; exact I|].
  apply visible_trim. exact V.
Qed.

Lemma generateSearchQueries_lines_witness :
  exists lines h',
    generateSearchQueries listing (VString (js "boil?")) []
    = (Return (map VString lines), h')
    /\ lines
       = filter (fun line => truthy (trim line))
           (split LF (js "1. boiling point" ++ [LF; LF]
                      ++ js "  sea level pressure " ++ [LF]
                      ++ js "steam" ++ [LF]))
    /\ subsequence lines
         (split LF (js "1. boiling point" ++ [LF; LF]
                    ++ js "  sea level pressure " ++ [LF]
                    ++ js "steam" ++ [LF]))
    /\ Forall (fun line =>
                 ~ In LF line
                 /\ infix line (js "1. boiling point" ++ [LF; LF]
                                ++ js "  sea level pressure " ++ [LF]
                                ++ js "steam" ++ [LF])
                 /\ exists c, In c line /\ isWhiteSpace c = false)
              lines
    /\ completion_calls h' = S (completion_calls [])
    /\ fetches h' = fetches [].
Proof.
  apply (@generateSearchQueries_lines listing (VString (js "boil?")) []).
  - reflexivity.
  - discriminate.
Defined.

Example generateSearchQueries_listing :
  fst (generateSearchQueries listing (VString (js "boil?")) [])
  = Return [ VString (js "1. boiling point");
             VString (js "  sea level pressure ");
             VString (js "steam") ].
Proof. vm_compute. reflexivity. Qed.

(* ================================================================== *)
(** * Further properties: the paragraph fallback *)
(* ================================================================== *)

Lemma trySelectors_none (doc : document) (selectors : list selector) :
  (forall sel, In sel selectors -> select doc sel = []) ->
  trySelectors doc selectors = [].
Proof.
  induction selectors as [|sel rest IH]; intros H; simpl; [reflexivity|].
  rewrite (H sel) by (left; reflexivity). simpl.
  apply IH. intros s I. apply H. right; exact I.
Qed.

(** X8.  The fallback keeps a paragraph only if its trimmed text is longer
    than 50 units, 50 itself being too short.  So a page on which no
    content selector matches and no paragraph is that long yields the
    empty string, and its source is not cited. *)
Theorem extractContent_short_paragraphs
        (w : World) (url : jsstring) (h : history)
        (r : Response) (loaded : document) :
  http w h url = Some r -> ok r = true -> page r = Some loaded ->
  (forall sel, In sel contentSelectors ->
               select (remove unwanted loaded) sel = []) ->
  Forall (fun p => List.length (trim (text [p])) <= 50)
         (select (remove unwanted loaded) (ByTag (js "p"))) ->
  extractContent w url h = (Return [], Fetched url :: h).
Proof.
  intros H O P S F. rewrite (extractContent_served w url h H O P).
  unfold mainContent. rewrite (trySelectors_none _ _ S). cbn [truthy negb].
  replace (paragraphs (remove unwanted loaded)) with (@nil jsstring);
    [reflexivity|].
  symmetry. unfold paragraphs. apply filter_none. apply Forall_map.
  eapply Forall_impl; [|exact F].
  intros p L. apply Nat.ltb_ge. exact L.
Qed.

Lemma extractContent_short_paragraphs_witness :
  extractContent (world two_results short_paragraph None)
                 (js "http://a.example/") []
  = (Return [], [Fetched (js "http://a.example/")]).
Proof.
  apply (@extractContent_short_paragraphs
           (world two_results short_paragraph None)
           (js "http://a.example/") [] (served short_paragraph)
           short_paragraph eq_refl eq_refl eq_refl).
  - intros sel [<-|[<-|[<-|[<-|[<-|[<-|[<-|[]]]]]]]]; reflexivity.
  - vm_compute. repeat constructor.
Defined.

(* ================================================================== *)
(** * Further properties: the effects of the stages *)
(* ================================================================== *)

Section StageEffects.

Variable w : World.

Lemma extractContent_effects (url : jsstring) (h : history) :
  exists content h',
    extractContent w url h = (Return content, h')
    /\ fetches h' = fetches h ++ [url]
    /\ paused h' = paused h
    /\ completion_calls h' = completion_calls h.
Proof.
  unfold extractContent. unfold_monad.
  destruct (http w h url) as [r|].
  - destruct (ok r); cbn [negb].
    + destruct (page r); eexists _, _; repeat split.
    + eexists _, _; repeat split.
  - eexists _, _; repeat split.
Qed.

Lemma contributing_cons (s : SearchResult) (c : jsstring)
      (vs : list (SearchResult * jsstring)) :
  contributing ((s, c) :: vs)
  = (if truthy c then [url s] else []) ++ contributing vs.
Proof. unfold contributing. simpl. destruct (truthy c); reflexivity. Qed.

(** The loop in full: the blocks and citations it appends, and what it
    costs. *)
Lemma processSources_effects (sources : list SearchResult)
      (sourceTexts citations : list jsstring) (h : history) :
  exists h',
    processSources w sources (sourceTexts, citations) h
    = (Return (sourceTexts ++ flat_map blocks (visits w sources h),
               citations ++ contributing (visits w sources h)), h')
    /\ fetches h' = fetches h ++ map url sources
    /\ paused h' = paused h + 500 * List.length sources
    /\ completion_calls h' = completion_calls h.
Proof.
  revert sourceTexts citations h;
    induction sources as [|s rest IH]; intros sourceTexts citations h.
  - exists h. simpl. unfold ret, contributing. simpl.
    rewrite !app_nil_r. repeat split. lia.
  - destruct (extractContent_effects (url s) h) as [c [h1 [E [F [P C]]]]].
    assert (V : visits w (s :: rest) h
                = (s, c) :: visits w rest (Slept 500 :: h1))
      by (cbn [visits]; rewrite E; reflexivity).
    rewrite V. cbn [flat_map]. rewrite contributing_cons.
    cbn [processSources]. unfold_monad. rewrite E.
    unfold blocks at 1. cbn [fst snd].
    destruct (truthy c); destruct (truthy (snippet s)); cbv beta iota zeta;
      match goal with
      | |- context [processSources w rest (?t, ?ci) ?hh] =>
          destruct (IH t ci hh) as [h' [E' [F' [P' C']]]]
      end;
      exists h'; rewrite E';
      (split; [repeat rewrite <- app_assoc; reflexivity|]);
      rewrite F', P', C'; cbn [fetches paused completion_calls];
      rewrite F, P, C; cbn [map List.length];
      (split; [rewrite <- app_assoc; reflexivity|]); split; lia.
Qed.

Lemma searchGoogle_effects (query : jsval) (h : history) :
  exists results h',
    searchGoogle w query h = (Return results, h')
    /\ List.length results <= 8
    /\ paused h' = paused h
    /\ completion_calls h' = completion_calls h
    /\ List.length (fetches h') <= S (List.length (fetches h)).
Proof.
  unfold searchGoogle. unfold_monad.
  destruct (match ToString query with
            | Return s => encodeURIComponent s
            | Throw e => Throw e
            end) as [encoded|e].
  - destruct (http w h _) as [r|].
    + destruct (ok r); cbn [negb].
      * destruct (page r) as [doc|]; eexists _, _;
          (split; [reflexivity|]);
          (split; [try apply firstn_le_length; simpl; lia|]);
          cbn [paused completion_calls fetches]; rewrite length_app;
          simpl; repeat split; lia.
      * eexists _, _. split; [reflexivity|].
        cbn [paused completion_calls fetches]. rewrite length_app.
        simpl. repeat split; lia.
    + eexists _, _. split; [reflexivity|].
      cbn [paused completion_calls fetches]. rewrite length_app.
      simpl. repeat split; lia.
  - eexists _, _. split; [reflexivity|]. simpl. repeat split; lia.
Qed.

Lemma gatherSources_effects (searchQueries : list jsval)
      (allSources : list SearchResult) (h : history) :
  exists sources h',
    gatherSources w searchQueries allSources h = (Return sources, h')
    /\ List.length sources
       <= List.length allSources + 8 * List.length searchQueries
    /\ paused h' = paused h + 2000 * List.length searchQueries
    /\ completion_calls h' = completion_calls h
    /\ List.length (fetches h')
       <= List.length (fetches h) + List.length searchQueries.
Proof.
  revert allSources h;
    induction searchQueries as [|q qs IH]; intros allSources h.
  - exists allSources, h. simpl. unfold ret. repeat split; lia.
  - destruct (searchGoogle_effects q h) as [results [h1 [E [L [P [C F]]]]]].
    cbn [gatherSources]. unfold bind at 1. rewrite E.
    unfold bind at 1. unfold sleep, emit.
    destruct (IH (allSources ++ results) (Slept 2000 :: h1))
      as [sources [h' [E' [L' [P' [C' F']]]]]].
    exists sources, h'. split; [exact E'|].
    rewrite length_app in L'. cbn [paused completion_calls fetches] in *.
    cbn [List.length]. repeat split; lia.
Qed.


End StageEffects.

Lemma subsequence_length {A : Type} (l m : list A) :
  subsequence l m -> List.length l <= List.length m.
Proof. induction 1; simpl; lia. Qed.

(* ================================================================== *)
(** * Further properties: the synthesis *)
(* ================================================================== *)

(** X9.  The synthesis request carries, for every source in order, its
    content block when the extractor returned content, then its snippet
    block when the snippet is not empty: a snippet is used whether or not
    the page could be read.  It is the only completion request of the
    stage. *)
Theorem synthesizeInformation_request
        (w : World) (query : jsval) (sources : list SearchResult)
        (h : history) (shown : jsstring) :
  ToString query = Return shown ->
  exists result h1 tail,
    synthesizeInformation w query sources h
    = (Return result,
       tail ++ Completed (js "gpt-4o")
                 (synthesisMessages shown
                    (flat_map blocks (visits w sources h))) :: h1)
    /\ completion_calls h1 = completion_calls h
    /\ completion_calls tail = 0.
Proof.
  intros T.
  destruct (processSources_effects w sources [] [] h) as [h1 [E [_ [_ C]]]].
  unfold synthesizeInformation. unfold_monad. rewrite E, T. cbn [app].
  destruct (completions w h1 _) as [r|].
  - destruct (choices r) as [|c cs].
    + eexists _, h1, [_]. split; [reflexivity|]. split; [exact C | reflexivity].
    + eexists _, h1, []. split; [reflexivity|]. split; [exact C | reflexivity].
  - eexists _, h1, [_]. split; [reflexivity|]. split; [exact C | reflexivity].
Qed.

Lemma synthesizeInformation_request_witness :
  exists result h1 tail,
    synthesizeInformation pageless (VString (js "boil?")) two_sources []
    = (Return result,
       tail ++ Completed (js "gpt-4o")
                 (synthesisMessages (js "boil?")
                    (flat_map blocks (visits pageless two_sources []))) :: h1)
    /\ completion_calls h1 = completion_calls []
    /\ completion_calls tail = 0.
Proof.
  exact (@synthesizeInformation_request pageless (VString (js "boil?"))
           two_sources [] (js "boil?") eq_refl).
Defined.

(** With no page readable the request still holds both snippets. *)
Example synthesizeInformation_snippets_only :
  flat_map blocks (visits pageless two_sources [])
  = [js "Snippet: Water boils."; js "Snippet: It boils."].
Proof. vm_compute. reflexivity. Qed.

(** X10.  The synthesis fetches every source exactly once, in the order
    of the list and also when a URL occurs twice, pauses 500 ms after each,
    and makes at most one completion request. *)
Theorem synthesizeInformation_effects
        (w : World) (query : jsval) (sources : list SearchResult)
        (h : history) :
  exists result h',
    synthesizeInformation w query sources h = (Return result, h')
    /\ fetches h' = fetches h ++ map url sources
    /\ paused h' = paused h + 500 * List.length sources
    /\ completion_calls h' <= S (completion_calls h).
Proof.
  destruct (processSources_effects w sources [] [] h) as [h1 [E [F [P C]]]].
  unfold synthesizeInformation. unfold_monad. rewrite E. cbn [app].
  destruct (ToString query) as [shown|e].
  - destruct (completions w h1 _) as [r|].
    + destruct (choices r) as [|c cs]; eexists _, _;
        (split; [reflexivity|]); cbn [fetches paused completion_calls];
        rewrite F, P, C; repeat split; lia.
    + eexists _, _. split; [reflexivity|].
      cbn [fetches paused completion_calls]. rewrite F, P, C.
      repeat split; lia.
  - eexists _, _. split; [reflexivity|].
    cbn [fetches paused completion_calls]. rewrite F, P, C.
    repeat split; lia.
Qed.

(** X11.  When the completion of the synthesis has content, that content
    is the answer as it is, the empty string included (the fallback text
    stands in for [null] only), with the citations of the loop; a
    completion without any choice counts as a failure and drops the
    citations. *)
Theorem synthesizeInformation_answer
        (w : World) (query : jsval) (sources : list SearchResult)
        (h : history) (sourceTexts citations : list jsstring) (h1 : history)
        (shown : jsstring) (r : ChatCompletion) :
  processSources w sources ([], []) h
  = (Return (sourceTexts, citations), h1) ->
  ToString query = Return shown ->
  completions w h1 (synthesisMessages shown sourceTexts) = Some r ->
  let h2 := Completed (js "gpt-4o") (synthesisMessages shown sourceTexts)
              :: h1 in
  synthesizeInformation w query sources h
  = match choices r with
    | c :: _ =>
        (Return (match message_content c with
                 | Some content => content
                 | None => js "No content available"
                 end, citations), h2)
    | [] =>
        (Return (js "Error synthesizing information.", []),
         Logged (js "Error synthesizing information:") :: h2)
    end.
Proof.
  intros P T F h2. unfold synthesizeInformation. unfold_monad.
  rewrite P, T, F. destruct (choices r) as [|c cs]; reflexivity.
Qed.

Lemma synthesizeInformation_answer_witness :
  (exists h',
     synthesizeInformation silent (VString (js "boil?")) two_sources []
     = (Return ([], [js "http://a.example/"; js "http://b.example/"]), h'))
  /\ (exists h',
        synthesizeInformation choiceless (VString (js "boil?")) two_sources []
        = (Return (js "Error synthesizing information.", []), h')).
Proof.
  split; eexists.
  - exact (@synthesizeInformation_answer silent (VString (js "boil?"))
             two_sources [] _ _ _ _ _
             ltac:(vm_compute; reflexivity) eq_refl eq_refl).
  - exact (@synthesizeInformation_answer choiceless (VString (js "boil?"))
             two_sources [] _ _ _ _ _
             ltac:(vm_compute; reflexivity) eq_refl eq_refl).
Defined.

(* ================================================================== *)
(** * Further properties: the handler as a whole *)
(* ================================================================== *)



(** X13.  A response never cites more than 8 URLs per query it lists in
    [searchQueriesUsed]. *)
Theorem POST_citations_bound (w : World) (request : Request) (h : history) :
  exists response h',
    POST w request h = (Return response, h')
    /\ List.length (citations_of response)
       <= 8 * List.length (queries_of response).
Proof.
  destruct (readable (json_body request)) eqn:R.
  - destruct (json_body request) as [value|] eqn:B; [|discriminate R].
    destruct (readable_query value R) as [query D].
    destruct (POST_readable w request h B D)
      as [queries [h1 [sources [h2 [answer [citations [h3
            [_ [S [_ [Y E]]]]]]]]]]].
    eexists _, _. split; [exact E|].
    rewrite citations_of_success, length_map.
    change (queries_of (success query answer citations queries)) with queries.
    destruct (gatherSources_effects w queries [] h1)
      as [sources' [h2' [S' [L _]]]].
    rewrite S in S'. injection S' as <- <-.
    destruct (synthesizeInformation_subsequence w query sources h2)
      as [answer' [citations' [h3' [Y' Sub]]]].
    rewrite Y in Y'. injection Y' as _ <- _.
    apply subsequence_length in Sub. rewrite length_map in Sub.
    simpl in L. lia.
  - eexists _, _. split; [apply POST_unreadable; exact R|]. simpl. lia.
Qed.

(** X14.  With the completion service down for the whole request, a
    request that can be read is still answered 200: the question is the
    only query used, the answer is the fixed error text and nothing is
    cited, whatever the searches returned. *)
Theorem POST_without_completions
        (w : World) (request : Request) (h : history) (value query : jsval) :
  (forall h' messages, completions w h' messages = None) ->
  json_body request = Some value ->
  destructure_query value = Return query ->
  exists h',
    POST w request h
    = (Return (success query (js "Error synthesizing information.") []
                       [query]), h').
Proof.
  intros Down B D.
  assert (G : exists h1, generateSearchQueries w query h = (Return [query], h1)).
  { unfold generateSearchQueries. unfold_monad.
    destruct (ToString query) as [shown|e]; [|eexists; reflexivity].
    rewrite Down. eexists; reflexivity. }
  destruct G as [h1 G].
  destruct (gatherSources_runs w [query] (allSources := []) h1 (Forall_nil _))
    as [sources [h2 [S _]]].
  assert (Y : exists h3,
             synthesizeInformation w query sources h2
             = (Return (js "Error synthesizing information.", []), h3)).
  { destruct (processSources_runs w sources [] [] h2) as [texts [h2' E]].
    unfold synthesizeInformation. unfold_monad. rewrite E.
    destruct (ToString query) as [shown|e]; [|eexists; reflexivity].
    rewrite Down. eexists; reflexivity. }
  destruct Y as [h3 Y]. exists h3.
  unfold POST. unfold_monad. rewrite B, D, G, S, Y. reflexivity.
Qed.

Lemma POST_without_completions_witness :
  exists h',
    POST mute (ask "boil?") []
    = (Return (success (VString (js "boil?"))
                       (js "Error synthesizing information.") []
                       [VString (js "boil?")]), h').
Proof.
  apply (@POST_without_completions mute (ask "boil?") [] _ _
           (fun _ _ => eq_refl) eq_refl eq_refl).
Defined.

Lemma truthy_false_nil (s : jsstring) : truthy s = false -> s = [].
Proof. destruct s; simpl; congruence. Qed.

(* ================================================================== *)
(** * Further properties: the page *)
(* ================================================================== *)

(** X15.  A submission with a blank question does nothing at all.  Any
    other submission sends exactly one POST to [/api/search] with the
    question as typed, not trimmed, shows [loading] without an error while
    it is pending, and ends with [loading] off and the question in place.
    It ends either with the data of an ok response as the new result and
    no error, or with an error message and the result of the previous
    search still on the page. *)
Theorem handleSearch_outcome (net : Page.Network) (s : Page.State) :
  let s' := fst (Page.handleSearch net s) in
  let sent := snd (Page.handleSearch net s) in
  (trim (Page.query s) = [] /\ s' = s /\ sent = [])
  \/ (trim (Page.query s) <> []
      /\ exists request,
           sent = [request]
           /\ Page.input request = js "/api/search"
           /\ Page.method request = js "POST"
           /\ Page.body request
              = VObject [(js "query", VString (Page.query s))]
           /\ Page.loading (Page.pending request) = true
           /\ Page.error (Page.pending request) = None
           /\ Page.loading s' = false
           /\ Page.query s' = Page.query s
           /\ ((Page.error s' = None
                /\ exists response,
                     net request = Page.Resolved response
                     /\ Page.ok response = true
                     /\ Page.json response = Page.Resolved (Page.result s'))
               \/ (Page.result s' = Page.result s
                   /\ exists message, Page.error s' = Some message))).
Proof.
  unfold Page.handleSearch.
  destruct (truthy (trim (Page.query s))) eqn:T; cbn [negb fst snd].
  - right. apply truthy_true in T. split; [exact T|].
    eexists. split; [reflexivity|].
    match goal with
    | |- context [net ?req] => destruct (net req) as [response|e] eqn:N
    end.
    + destruct (Page.ok response) eqn:O; cbn [negb].
      * destruct (Page.json response) as [data|e] eqn:J;
          cbn; repeat (split; [reflexivity|]).
        -- left. split; [reflexivity|]. exists response. auto.
        -- right. split; [reflexivity|]. eexists; reflexivity.
      * cbn; repeat (split; [reflexivity|]).
        right. split; [reflexivity|]. eexists; reflexivity.
    + cbn; repeat (split; [reflexivity|]).
      right. split; [reflexivity|]. eexists; reflexivity.
  - left. apply truthy_false_nil in T. auto.
Qed.

Lemma generateSearchQueries_strings
      (w : World) (question : jsstring) (h : history)
      (queries : list jsval) (h' : history) :
  generateSearchQueries w (VString question) h = (Return queries, h') ->
  exists lines, queries = map VString lines.
Proof.
  unfold generateSearchQueries. unfold_monad. cbn [ToString].
  destruct (completions w h _) as [r|];
    [|intros E; injection E as <- _; exists [question]; reflexivity].
  destruct (choices r) as [|c cs];
    [intros E; injection E as <- _; exists [question]; reflexivity|].
  destruct (message_content c) as [content|];
    [|intros E; injection E as <- _; exists [question]; reflexivity].
  destruct (truthy content); intros E; injection E as <- _.
  - eexists; reflexivity.
  - exists [question]; reflexivity.
Qed.

Lemma jsonRoundTrip_strings (l : list jsstring) :
  jsonRoundTrip (VArray (map VString l)) = VArray (map VString l).
Proof.
  simpl. f_equal. rewrite map_map. apply map_ext. reflexivity.
Qed.

(** X16.  The page and the route together: a question that is not blank,
    submitted to a route that can be reached, never ends in the error
    banner.  Whatever the outbound services do, the page ends with
    [loading] off, no error, and a result that echoes the question as
    typed and holds an answer, a list of citations, each a trimmed URL
    that starts with [http], and the list of queries used, which are the
    fields the page renders. *)
Theorem page_search_end_to_end (w : World) (h : history) (s : Page.State) :
  trim (Page.query s) <> [] ->
  exists answer citations queries,
    fst (Page.handleSearch (backend w h) s)
    = {| Page.query := Page.query s;
         Page.loading := false;
         Page.error := None;
         Page.result :=
           VObject [ (js "query", VString (Page.query s));
                     (js "answer", VString answer);
                     (js "citations", VArray (map VString citations));
                     (js "searchQueriesUsed", VArray (map VString queries)) ] |}
    /\ Forall (fun u => starts_with_http u /\ is_trimmed u) citations.
Proof.
  intros NB. apply truthy_true in NB.
  set (request := {| json_body := Some (VObject [(js "query",
                                                  VString (Page.query s))]);
                     forwarded_for := None |}).
  destruct (@POST_readable w request h
              (VObject [(js "query", VString (Page.query s))])
              (VString (Page.query s)) eq_refl eq_refl)
    as [queries [h1 [sources [h2 [answer [citations [h3
          [G [_ [W [Y E]]]]]]]]]]].
  destruct (generateSearchQueries_strings _ _ _ G) as [lines ->].
  exists answer, citations, lines. split.
  - unfold Page.handleSearch. rewrite NB. cbn [negb].
    unfold backend.
    cbn [Page.input Page.body Page.setError Page.setLoading Page.query].
    change (JsString.eqb (js "/api/search") (js "/api/search")) with true.
    cbv iota.
    change (jsonRoundTrip (VObject [(js "query", VString (Page.query s))]))
      with (VObject [(js "query", VString (Page.query s))]).
    fold request. rewrite E.
    cbn [status success data Page.ok Page.json negb fst
         Nat.leb andb].
    change (200 <=? 200) with true. change (200 <=? 299) with true.
    cbn [andb negb].
    change (jsonRoundTrip
              (VObject [ (js "query", VString (Page.query s));
                         (js "answer", VString answer);
                         (js "citations", VArray (map VString citations));
                         (js "searchQueriesUsed", VArray (map VString lines)) ]))
      with (VObject [ (js "query", VString (Page.query s));
                      (js "answer", VString answer);
                      (js "citations",
                       jsonRoundTrip (VArray (map VString citations)));
                      (js "searchQueriesUsed",
                       jsonRoundTrip (VArray (map VString lines))) ]).
    rewrite !jsonRoundTrip_strings. reflexivity.
  - destruct (synthesizeInformation_subsequence w (VString (Page.query s))
                sources h2) as [answer' [citations' [h3' [Y' Sub]]]].
    rewrite Y in Y'. injection Y' as _ <- _.
    apply Forall_forall. intros u I.
    apply (@subsequence_In _ _ _ u Sub), in_map_iff in I as [source [<- J]].
    rewrite Forall_forall in W. destruct (W source J) as [_ [_ [H [_ [T _]]]]].
    split; assumption.
Qed.

Lemma page_search_end_to_end_witness :
  exists answer citations queries,
    fst (Page.handleSearch (backend answering []) (typed " boil? "))
    = {| Page.query := js " boil? ";
         Page.loading := false;
         Page.error := None;
         Page.result :=
           VObject [ (js "query", VString (js " boil? "));
                     (js "answer", VString answer);
                     (js "citations", VArray (map VString citations));
                     (js "searchQueriesUsed", VArray (map VString queries)) ] |}
    /\ Forall (fun u => starts_with_http u /\ is_trimmed u) citations.
Proof.
  apply (@page_search_end_to_end answering [] (typed " boil? ")).
  discriminate.
Defined.

(** The banner shows when the route cannot be reached or answers with a
    failure status, and the page is otherwise as before the search. *)
Example handleSearch_unreachable :
  fst (Page.handleSearch unreachable (typed "boil?"))
  = Page.setError (Some (js "Failed to fetch")) (typed "boil?")
  /\ fst (Page.handleSearch failing (typed "boil?"))
     = Page.setError (Some (js "Search failed")) (typed "boil?")
  /\ Page.handleSearch unreachable (typed "   ") = (typed "   ", []).
Proof. repeat split. Qed.
